(** * Dispatch layer of the zodiac-ai backend: breaker, queue, limiter, AI caller

    A shallow embedding of the Go packages [pkg/circuitbreaker], [pkg/queue],
    [pkg/middleware] (sliding-window limiter), [services/ai-service/client]
    and [services/ai-service/handlers], followed by the properties the
    specification states about them.

    Conventions.
    - Go's [int], [int64] and [time.Duration] are 64-bit signed integers; they
      are values of [Z] and every arithmetic operation of the source is written
      with its wrap-around ([GoInt.wrap64]).
    - [time.Time] is an instant in nanoseconds on an unbounded line ([Z]);
      [time.Now()] is an explicit argument of the function that calls it.
    - Every function that takes a mutex for its whole body is one atomic
      transition on the protected record. *)

From Stdlib Require Import ZArith List String Bool Lia.
From stdpp Require Import base gmap strings list.
Import ListNotations.

(** ** Machine integers *)

Module GoInt.
Local Open Scope Z_scope.

Definition minInt64 : Z := - 2 ^ 63.
Definition maxInt64 : Z := 2 ^ 63 - 1.

(** Two's complement reduction of a mathematical integer to 64 bits. *)
Definition wrap64 (z : Z) : Z := (z + 2 ^ 63) mod 2 ^ 64 - 2 ^ 63.

Definition is_int64 (z : Z) : Prop := minInt64 <= z <= maxInt64.

(** [x++] *)
Definition incr (x : Z) : Z := wrap64 (x + 1).
(** [-x] *)
Definition neg (x : Z) : Z := wrap64 (- x).
(** [x * y] *)
Definition mul (x y : Z) : Z := wrap64 (x * y).
(** [x << n] for an unsigned shift count [n]; a count of 64 or more gives 0. *)
Definition shl (x n : Z) : Z := wrap64 (Z.shiftl x n).
(** [uint(x)] *)
Definition to_uint (x : Z) : Z := x mod 2 ^ 64.

End GoInt.

(** ** Package [time] *)

Module GoTime.
Local Open Scope Z_scope.

Definition Time := Z.
Definition Duration := Z.

(** [time.Second], in nanoseconds. *)
Definition Second : Duration := 1000000000.

(** [t.Sub(u)]: the difference, saturated to the range of [Duration]. *)
Definition Sub (t u : Time) : Duration :=
  Z.max GoInt.minInt64 (Z.min GoInt.maxInt64 (t - u)).

(** [time.Since(t)] at the instant [now]. *)
Definition Since (now t : Time) : Duration := Sub now t.

(** [t.Add(d)] *)
Definition Add (t : Time) (d : Duration) : Time := t + d.

(** [t.After(u)] *)
Definition After (t u : Time) : bool := u <? t.

End GoTime.

(** ** Errors

    The sentinel values made by [errors.New] in the packages, compared by
    identity in the source, and the errors that come from outside. *)

Inductive error : Type :=
| ErrCircuitOpen
| ErrTooManyRequests
| ErrQueueFull
| ErrQueueClosed
| ErrAIUnavailable
| ErrInvalidPrompt
| ErrInternal
| ErrContext (msg : string)
| ErrExternal (msg : string).

Definition error_Error (e : error) : string :=
  match e with
  | ErrCircuitOpen => "circuit breaker is open"
  | ErrTooManyRequests => "too many requests"
  | ErrQueueFull => "request queue is full"
  | ErrQueueClosed => "request queue is closed"
  | ErrAIUnavailable => "AI service unavailable"
  | ErrInvalidPrompt => "invalid prompt"
  | ErrInternal => "internal error processing request"
  | ErrContext msg => msg
  | ErrExternal msg => msg
  end.

#[global] Instance error_eq_dec : EqDecision error.
Proof. solve_decision. Defined.

(** ** Package [circuitbreaker] *)

Module CircuitBreaker.
Import GoTime.
Local Open Scope Z_scope.

(** The three values the field [state] ever takes; the [default] branches
    of the source, for an integer that is none of them, have no counterpart. *)
Inductive State : Type := StateClosed | StateOpen | StateHalfOpen.

#[global] Instance State_eq_dec : EqDecision State.
Proof. solve_decision. Defined.

Record Config : Type := mkConfig {
  MaxFailures : Z;
  ResetTimeout : Duration;
  HalfOpenMaxReqs : Z
}.

Record t : Type := mk {
  maxFailures : Z;
  resetTimeout : Duration;
  halfOpenMaxReqs : Z;
  state : State;
  failures : Z;
  lastFailureTime : Time;
  halfOpenReqs : Z
}.

(** The zero value of [time.Time] (year 1), far below every clock reading;
    the source never reads it before a failure has stamped the field. *)
Definition zeroTime : Time := - 62135596800 * Second.

Definition NewCircuitBreaker (config : Config) : t :=
  let mf := if MaxFailures config <=? 0 then 5 else MaxFailures config in
  let rt := if ResetTimeout config <=? 0 then 60 * Second else ResetTimeout config in
  let hm := if HalfOpenMaxReqs config <=? 0 then 1 else HalfOpenMaxReqs config in
  {| maxFailures := mf;
     resetTimeout := rt;
     halfOpenMaxReqs := hm;
     state := StateClosed;
     failures := 0;
     lastFailureTime := zeroTime;
     halfOpenReqs := 0 |}.

Definition set_state (s : State) (cb : t) : t :=
  {| maxFailures := maxFailures cb; resetTimeout := resetTimeout cb;
     halfOpenMaxReqs := halfOpenMaxReqs cb; state := s;
     failures := failures cb; lastFailureTime := lastFailureTime cb;
     halfOpenReqs := halfOpenReqs cb |}.

Definition set_failures (f : Z) (cb : t) : t :=
  {| maxFailures := maxFailures cb; resetTimeout := resetTimeout cb;
     halfOpenMaxReqs := halfOpenMaxReqs cb; state := state cb;
     failures := f; lastFailureTime := lastFailureTime cb;
     halfOpenReqs := halfOpenReqs cb |}.

Definition set_lastFailureTime (x : Time) (cb : t) : t :=
  {| maxFailures := maxFailures cb; resetTimeout := resetTimeout cb;
     halfOpenMaxReqs := halfOpenMaxReqs cb; state := state cb;
     failures := failures cb; lastFailureTime := x;
     halfOpenReqs := halfOpenReqs cb |}.

Definition set_halfOpenReqs (n : Z) (cb : t) : t :=
  {| maxFailures := maxFailures cb; resetTimeout := resetTimeout cb;
     halfOpenMaxReqs := halfOpenMaxReqs cb; state := state cb;
     failures := failures cb; lastFailureTime := lastFailureTime cb;
     halfOpenReqs := n |}.

(** [beforeRequest], run at the instant [now]: the error it returns
    ([None] is [nil]) and the record it leaves. *)
Definition beforeRequest (now : Time) (cb : t) : option error * t :=
  match state cb with
  | StateClosed => (None, cb)
  | StateOpen =>
      if resetTimeout cb <? Since now (lastFailureTime cb)
      then (None, set_halfOpenReqs 0 (set_state StateHalfOpen cb))
      else (Some ErrCircuitOpen, cb)
  | StateHalfOpen =>
      if halfOpenMaxReqs cb <=? halfOpenReqs cb
      then (Some ErrTooManyRequests, cb)
      else (None, set_halfOpenReqs (GoInt.incr (halfOpenReqs cb)) cb)
  end.

(** [afterRequest(err)], run at the instant [now]. *)
Definition afterRequest (err : option error) (now : Time) (cb : t) : t :=
  match err with
  | Some _ =>
      let cb1 := set_lastFailureTime now (set_failures (GoInt.incr (failures cb)) cb) in
      match state cb1 with
      | StateHalfOpen => set_state StateOpen cb1
      | _ =>
          if maxFailures cb1 <=? failures cb1
          then set_state StateOpen cb1
          else cb1
      end
  | None =>
      match state cb with
      | StateHalfOpen =>
          set_halfOpenReqs 0 (set_failures 0 (set_state StateClosed cb))
      | StateClosed => set_failures 0 cb
      | StateOpen => cb
      end
  end.

Definition Reset (cb : t) : t :=
  set_halfOpenReqs 0 (set_failures 0 (set_state StateClosed cb)).

Section Execute.
(** The world outside the breaker: whatever the protected function reads and
    changes, and the clock that [time.Now] reads from it. *)
Context {W : Type} (clock : W -> Time).

(** [Execute(fn)]: the error returned, the breaker afterwards, the world
    afterwards.  [fn] is applied only on the admitted path. *)
Definition Execute (fn : W -> option error * W) (cb : t) (w : W)
  : option error * t * W :=
  match beforeRequest (clock w) cb with
  | (Some err, cb1) => (Some err, cb1, w)
  | (None, cb1) =>
      let '(err, w1) := fn w in
      (err, afterRequest err (clock w1) cb1, w1)
  end.

(** A caller: what the world goes through before its call arrives (time
    passes, other work is done), and the function it protects. *)
Record Call : Type := mkCall {
  arrive : W -> W;
  fn_of : W -> option error * W
}.

(** A run of [Execute] calls one after the other. *)
Fixpoint Execute_all (calls : list Call) (cb : t) (w : W) : t * W :=
  match calls with
  | [] => (cb, w)
  | c :: rest =>
      let '(_, cb1, w1) := Execute (fn_of c) cb (arrive c w) in
      Execute_all rest cb1 w1
  end.

(** The protected function reports an error whatever the world is. *)
Definition fails (fn : W -> option error * W) : Prop :=
  forall w, fst (fn w) <> None.
End Execute.

Arguments Call : clear implicits.

(** The interleavings of concurrent callers: each mutex-protected method is
    one event. *)
Inductive Event : Type :=
| EvBefore (now : Time)
| EvAfter (err : option error) (now : Time)
| EvReset.

Definition step (cb : t) (e : Event) : t :=
  match e with
  | EvBefore now => snd (beforeRequest now cb)
  | EvAfter err now => afterRequest err now cb
  | EvReset => Reset cb
  end.

Definition run (cb : t) (tr : list Event) : t := fold_left step tr cb.

(** The instant of the most recent failed call reported in a trace, if any. *)
Fixpoint last_failure (tr : list Event) (acc : option Time) : option Time :=
  match tr with
  | [] => acc
  | EvAfter (Some _) now :: rest => last_failure rest (Some now)
  | _ :: rest => last_failure rest acc
  end.

End CircuitBreaker.

(** ** Package [queue] *)

Module Queue.
Import GoTime.
Local Open Scope Z_scope.

(** The [interface{}] payloads that travel through the queue: the request map
    built by the handler, the string returned by the processor, or nothing. *)
Inductive Data : Type :=
| DataNil
| DataString (s : string)
| DataChat (zodiac_sign user_message : string).

Record Result : Type := mkResult {
  ResultData : Data;
  ResultError : option error
}.

(** What a call of the processor does: it returns a pair or it panics. *)
Inductive ProcReturn : Type :=
| Returned (result : Data) (err : option error)
| Panicked.

Section WithWorld.
(** The world the processor and the request contexts live in. *)
Context {W : Type}.

Definition RequestProcessor : Type := Data -> W -> ProcReturn * W.

Record Request : Type := mkRequest {
  ID : string;
  ReqData : Data;
  (** [req.Context.Err()], read from the world at the time of the call *)
  ContextErr : W -> option error;
  EnqueueAt : Time
}.

Record Config : Type := mkConfig {
  QueueSize : Z;
  Workers : Z;
  Processor : option RequestProcessor
}.

(** [queue] is the buffer of the channel, oldest first, and [capacity] its
    [cap].  [inFlight] is not a field of the source: it lists the requests
    that a worker has received from the channel and not yet counted. *)
Record t : Type := mk {
  queue : list Request;
  capacity : Z;
  processor : RequestProcessor;
  workers : Z;
  closed : bool;
  totalEnqueued : Z;
  totalProcessed : Z;
  totalFailed : Z;
  totalDropped : Z;
  inFlight : list Request
}.

(** [NewRequestQueue]; [None] is the panic on a nil processor. *)
Definition NewRequestQueue (config : Config) : option t :=
  let size := if QueueSize config <=? 0 then 1000 else QueueSize config in
  let wk := if Workers config <=? 0 then 10 else Workers config in
  match Processor config with
  | None => None
  | Some p =>
      Some {| queue := []; capacity := size; processor := p; workers := wk;
              closed := false; totalEnqueued := 0; totalProcessed := 0;
              totalFailed := 0; totalDropped := 0; inFlight := [] |}
  end.

Definition set_queue (l : list Request) (q : t) : t :=
  {| queue := l; capacity := capacity q; processor := processor q;
     workers := workers q; closed := closed q;
     totalEnqueued := totalEnqueued q; totalProcessed := totalProcessed q;
     totalFailed := totalFailed q; totalDropped := totalDropped q;
     inFlight := inFlight q |}.

Definition set_closed (b : bool) (q : t) : t :=
  {| queue := queue q; capacity := capacity q; processor := processor q;
     workers := workers q; closed := b;
     totalEnqueued := totalEnqueued q; totalProcessed := totalProcessed q;
     totalFailed := totalFailed q; totalDropped := totalDropped q;
     inFlight := inFlight q |}.

Definition set_totalEnqueued (n : Z) (q : t) : t :=
  {| queue := queue q; capacity := capacity q; processor := processor q;
     workers := workers q; closed := closed q;
     totalEnqueued := n; totalProcessed := totalProcessed q;
     totalFailed := totalFailed q; totalDropped := totalDropped q;
     inFlight := inFlight q |}.

Definition set_totalProcessed (n : Z) (q : t) : t :=
  {| queue := queue q; capacity := capacity q; processor := processor q;
     workers := workers q; closed := closed q;
     totalEnqueued := totalEnqueued q; totalProcessed := n;
     totalFailed := totalFailed q; totalDropped := totalDropped q;
     inFlight := inFlight q |}.

Definition set_totalFailed (n : Z) (q : t) : t :=
  {| queue := queue q; capacity := capacity q; processor := processor q;
     workers := workers q; closed := closed q;
     totalEnqueued := totalEnqueued q; totalProcessed := totalProcessed q;
     totalFailed := n; totalDropped := totalDropped q;
     inFlight := inFlight q |}.

Definition set_totalDropped (n : Z) (q : t) : t :=
  {| queue := queue q; capacity := capacity q; processor := processor q;
     workers := workers q; closed := closed q;
     totalEnqueued := totalEnqueued q; totalProcessed := totalProcessed q;
     totalFailed := totalFailed q; totalDropped := n;
     inFlight := inFlight q |}.

Definition set_inFlight (l : list Request) (q : t) : t :=
  {| queue := queue q; capacity := capacity q; processor := processor q;
     workers := workers q; closed := closed q;
     totalEnqueued := totalEnqueued q; totalProcessed := totalProcessed q;
     totalFailed := totalFailed q; totalDropped := totalDropped q;
     inFlight := l |}.

(** [len(q.queue)] *)
Definition QueueSize_of (q : t) : Z := Z.of_nat (length (queue q)).

(** [Enqueue]: the closed check, then the [select] with a [default] branch:
    one offer to the channel, taken when the buffer has room, and the counter
    of the branch taken.  The source releases the lock between the three;
    here they are one step. *)
Definition Enqueue (req : Request) (q : t) : option error * t :=
  if closed q then (Some ErrQueueClosed, q)
  else if QueueSize_of q <? capacity q
  then (None, set_totalEnqueued (GoInt.incr (totalEnqueued q))
                (set_queue (queue q ++ [req]) q))
  else (Some ErrQueueFull, set_totalDropped (GoInt.incr (totalDropped q)) q).

(** The receive of the worker loop: the oldest request leaves the channel
    and is held by a worker.  On an empty channel the worker waits. *)
Definition dequeue (q : t) : t :=
  match queue q with
  | [] => q
  | req :: rest => set_inFlight (inFlight q ++ [req]) (set_queue rest q)
  end.

(** [processRequest] on a request held by a worker: the counters it moves,
    the result it writes to the reply channel of the request, the world
    afterwards.  A panic of the processor is caught by the deferred
    [recover]. *)
Definition processRequest (req : Request) (q : t) (w : W) : t * Result * W :=
  match ContextErr req w with
  | Some e =>
      (set_totalFailed (GoInt.incr (totalFailed q)) q,
       {| ResultData := DataNil; ResultError := Some e |}, w)
  | None =>
      match processor q (ReqData req) w with
      | (Returned result (Some e), w1) =>
          (set_totalFailed (GoInt.incr (totalFailed q)) q,
           {| ResultData := result; ResultError := Some e |}, w1)
      | (Returned result None, w1) =>
          (set_totalProcessed (GoInt.incr (totalProcessed q)) q,
           {| ResultData := result; ResultError := None |}, w1)
      | (Panicked, w1) =>
          (set_totalFailed (GoInt.incr (totalFailed q)) q,
           {| ResultData := DataNil; ResultError := Some ErrInternal |}, w1)
      end
  end.

(** The state change of [Stop]: the flag is set and the channel closed; a
    second call changes nothing. *)
Definition Stop (q : t) : t :=
  if closed q then q else set_closed true q.

(** The operations on a queue, each atomic. [OpProcess i] is the worker that
    holds the [i]-th request in flight running [processRequest] on it. *)
Inductive Op : Type :=
| OpEnqueue (req : Request)
| OpDequeue
| OpProcess (i : nat)
| OpStop.

Definition step (st : t * W) (op : Op) : t * W :=
  let '(q, w) := st in
  match op with
  | OpEnqueue req => (snd (Enqueue req q), w)
  | OpDequeue => (dequeue q, w)
  | OpProcess i =>
      match inFlight q !! i with
      | Some req =>
          let '(q1, _, w1) := processRequest req (set_inFlight (delete i (inFlight q)) q) w in
          (q1, w1)
      | None => (q, w)
      end
  | OpStop => (Stop q, w)
  end.

Definition run (st : t * W) (ops : list Op) : t * W := fold_left step ops st.

(** Where the accepted requests are: in the buffer, held by a worker, or
    counted as processed or failed. *)
Definition balanced (q : t) : Prop :=
  totalEnqueued q
  = totalProcessed q + totalFailed q + Z.of_nat (length (inFlight q)) + QueueSize_of q.

(** The three counters of accepted and finished requests lie in [0, n]. *)
Definition counters_within (n : Z) (q : t) : Prop :=
  0 <= totalEnqueued q <= n
  /\ 0 <= totalProcessed q <= n
  /\ 0 <= totalFailed q <= n.

End WithWorld.

Arguments Request : clear implicits.
Arguments Config : clear implicits.
Arguments t : clear implicits.
Arguments Op : clear implicits.
Arguments RequestProcessor : clear implicits.

End Queue.

(** ** Package [middleware]: the sliding-window limiter *)

Module Middleware.
Import GoTime.
Local Open Scope Z_scope.

(** [requests] maps an identifier to the [timestamps] slice of its entry. *)
Record RateLimiter : Type := mkRateLimiter {
  requests : gmap string (list Time);
  limit : Z;
  window : Duration
}.

(** The periodic sweep that [NewRateLimiter] starts, which forgets idle
    identifiers, is outside the model. *)
Definition NewRateLimiter (limit : Z) (window : Duration) : RateLimiter :=
  {| requests := ∅; limit := limit; window := window |}.

(** The timestamps stored for an identifier; none when it has no entry. *)
Definition timestamps (rl : RateLimiter) (identifier : string) : list Time :=
  default [] (requests rl !! identifier).

Definition set_requests (m : gmap string (list Time)) (rl : RateLimiter) : RateLimiter :=
  {| requests := m; limit := limit rl; window := window rl |}.

(** The pruning loop of [allow]. *)
Definition validTimestamps (windowStart : Time) (ts : list Time) : list Time :=
  List.filter (fun x => After x windowStart) ts.

(** [allow(identifier)], run at the instant [now]. *)
Definition allow (identifier : string) (now : Time) (rl : RateLimiter)
  : bool * RateLimiter :=
  let userReq := timestamps rl identifier in
  let windowStart := Add now (GoInt.neg (window rl)) in
  let valid := validTimestamps windowStart userReq in
  if limit rl <=? Z.of_nat (length valid)
  then (false, set_requests (<[identifier := valid]> (requests rl)) rl)
  else (true, set_requests (<[identifier := valid ++ [now]]> (requests rl)) rl).

End Middleware.

(** ** Package [client]: the caller of the generative provider

    The repository holds two copies of this file.  They have the same
    [GenerateContent], [GenerateInsight], [getFallbackInsight] and
    [getZodiacTraits]; they differ in the prompt text and in the table of
    fallback answers.  [Client] follows the copy that hands the API key to the
    provider; [ClientEnv] holds what the other copy words differently. *)

Module Client.
Import GoTime.
Local Open Scope Z_scope.

(** What the caller does to the outside, in the order it does it.  The last
    two stand for [CircuitBreaker.Execute] and for [Wait] of the token-bucket
    limiter; the package imports neither of the two packages. *)
Inductive Effect : Type :=
| EffSleep (d : Duration)
| EffWithTimeout (d : Duration)
| EffProvider (model prompt : string)
| EffCancel
| EffBreakerExecute
| EffLimiterWait.

#[global] Instance Effect_eq_dec : EqDecision Effect.
Proof. solve_decision. Defined.

Section WithWorld.
Context {W : Type}.

(** [client.Models.GenerateContent(ctx, model, genai.Text(prompt), nil)]
    followed by [result.Text()]: a text or an error, and a changed world. *)
Definition Provider : Type := string -> string -> W -> (string + error) * W.

Record GeminiClient : Type := mkGeminiClient {
  client : Provider;
  model : string;
  maxRetries : Z;
  baseDelay : Duration
}.

Definition NewGeminiClient (genai_NewClient : string -> Provider + error)
  (apiKey : string) : GeminiClient + error :=
  match genai_NewClient apiKey with
  | inr e => inr (ErrExternal ("failed to create Gemini client: " ++ error_Error e))
  | inl cl =>
      inl {| client := cl; model := "gemini-2.0-flash-exp";
             maxRetries := 3; baseDelay := Second |}
  end.

(** Computations that change the world and leave a log of effects. *)
Definition M (A : Type) : Type := W * list Effect -> A * (W * list Effect).

Definition ret {A : Type} (a : A) : M A := fun s => (a, s).

Definition bind {A B : Type} (m : M A) (k : A -> M B) : M B :=
  fun s => let '(a, s1) := m s in k a s1.

Definition emit (e : Effect) : M unit :=
  fun s => (tt, (fst s, snd s ++ [e])).

Definition call (c : GeminiClient) (prompt : string) : M (string + error) :=
  fun s =>
    let '(r, w1) := client c (model c) prompt (fst s) in
    (r, (w1, snd s ++ [EffProvider (model c) prompt])).

Notation "x <- m ;; k" := (bind m (fun x => k))
  (at level 100, m at next level, right associativity).
Notation "m ;;; k" := (bind m (fun _ => k))
  (at level 100, right associativity).

(** [c.baseDelay * time.Duration(1<<uint(attempt-1))] *)
Definition backoff (c : GeminiClient) (attempt : Z) : Duration :=
  GoInt.mul (baseDelay c) (GoInt.shl 1 (GoInt.to_uint (attempt - 1))).

(** The [for] loop of [GenerateContent] with [remaining] iterations left,
    that is [maxRetries - attempt] of them.  [lastErr] only feeds the log
    and is left out. *)
Fixpoint attempts (c : GeminiClient) (prompt : string) (remaining : nat)
  (attempt : Z) : M (string * option error) :=
  match remaining with
  | O => ret (EmptyString, Some ErrAIUnavailable)
  | S k =>
      (if 0 <? attempt then emit (EffSleep (backoff c attempt)) else ret tt) ;;;
      emit (EffWithTimeout (30 * Second)) ;;;
      r <- call c prompt ;;
      emit EffCancel ;;;
      match r with
      | inl text => ret (text, None)
      | inr _ => attempts c prompt k (attempt + 1)
      end
  end.

Definition GenerateContent (c : GeminiClient) (prompt : string)
  : M (string * option error) :=
  if String.eqb prompt EmptyString
  then ret (EmptyString, Some ErrInvalidPrompt)
  else attempts c prompt (Z.to_nat (maxRetries c)) 0.

End WithWorld.

Arguments Provider : clear implicits.
Arguments GeminiClient : clear implicits.
Arguments M : clear implicits.

(** A Go map literal with string keys: the pairs in the order written. *)
Fixpoint map_lookup (m : list (string * string)) (k : string) : option string :=
  match m with
  | [] => None
  | (k1, v) :: rest => if String.eqb k1 k then Some v else map_lookup rest k
  end.

Definition traits : list (string * string) :=
  [ ("Aries", "passionate, confident, determined, and courageous");
    ("Taurus", "reliable, patient, devoted, and practical");
    ("Gemini", "adaptable, outgoing, intelligent, and curious");
    ("Cancer", "intuitive, emotional, protective, and nurturing");
    ("Leo", "creative, passionate, generous, and warm-hearted");
    ("Virgo", "loyal, analytical, hardworking, and practical");
    ("Libra", "diplomatic, gracious, fair-minded, and social");
    ("Scorpio", "resourceful, brave, passionate, and determined");
    ("Sagittarius", "generous, idealistic, great sense of humor, and adventurous");
    ("Capricorn", "responsible, disciplined, self-controlled, and ambitious");
    ("Aquarius", "progressive, original, independent, and humanitarian");
    ("Pisces", "compassionate, artistic, intuitive, and gentle") ]%string.

Definition getZodiacTraits (sign : string) : string :=
  match map_lookup traits sign with
  | Some trait => trait
  | None => "empathetic and understanding"
  end.

Definition fallbacks : list (string * string) :=
  [ ("Aries", "Halo! Maaf nih, lagi ada gangguan sebentar. Tapi aku di sini kok, siap dengerin kamu.");
    ("Taurus", "Hai! Ada yang bisa aku bantu? Cerita aja, aku dengerin.");
    ("Gemini", "Halo! Gimana kabarnya? Ada yang mau diobrolin?");
    ("Cancer", "Hai! Aku di sini kalau kamu mau cerita atau butuh temen ngobrol.");
    ("Leo", "Halo! Ada yang bisa aku bantu hari ini?");
    ("Virgo", "Hai! Cerita aja kalau ada yang mau dibahas, aku siap dengerin.");
    ("Libra", "Halo! Gimana hari ini? Ada yang mau diceritain?");
    ("Scorpio", "Hai! Aku di sini kalau kamu butuh temen ngobrol.");
    ("Sagittarius", "Halo! Ada yang mau dibahas? Cerita aja santai.");
    ("Capricorn", "Hai! Gimana kabarnya? Aku siap dengerin kalau ada yang mau diceritain.");
    ("Aquarius", "Halo! Ada yang bisa aku bantu? Ngobrol aja santai.");
    ("Pisces", "Hai! Aku di sini kalau kamu butuh temen cerita.") ]%string.

Definition getFallbackChatResponse (zodiacSign : string) : string :=
  match map_lookup fallbacks zodiacSign with
  | Some response => response
  | None => "Halo! Ada yang bisa aku bantu? Cerita aja santai."
  end.

Definition getFallbackInsight : string :=
  "Setiap percakapan adalah cerminan dari perjalanan hidup kita. Dalam berbagi cerita dan perasaan, kita menemukan kekuatan untuk terus maju. Ingatlah bahwa setiap tantangan adalah kesempatan untuk tumbuh, dan setiap emosi yang kita rasakan adalah bagian dari kemanusiaan kita. Teruslah berbicara, teruslah berbagi, dan teruslah percaya bahwa hari esok membawa harapan baru.".

Definition buildChatPrompt (zodiacSign userMessage : string) : string :=
  ("Kamu adalah AI companion yang ramah dan bisa diajak ngobrol santai.
Kamu punya sedikit karakteristik zodiak " ++ zodiacSign ++ " (" ++ getZodiacTraits zodiacSign ++ "), tapi jangan terlalu berlebihan atau alay.

Respon dengan natural seperti teman yang ngobrol biasa:
- Jangan terlalu formal atau kaku
- Jangan terlalu dramatis atau puitis
- Fokus pada apa yang user tanyakan/ceritakan
- Kasih respon yang relevan dengan pesan mereka
- Boleh santai tapi tetap supportive

Pesan user: " ++ userMessage ++ "

Respon dalam bahasa Indonesia yang natural dan casual (max 100 kata).")%string.

Definition buildInsightPrompt (chatHistory : string) : string :=
  ("Analyze this conversation and extract a profound life lesson or insight.
Create a short, inspirational message (max 200 words) that could help others facing similar situations.

Conversation:
" ++ chatHistory ++ "

Generate a wisdom-filled insight that:
1. Identifies the core emotional theme
2. Offers a universal life lesson
3. Provides hope and encouragement
4. Is relatable to others

Format: A single paragraph of wisdom in Bahasa Indonesia. Make it profound and shareable.")%string.

(** The twelve zodiac tags. *)
Definition zodiacTags : list string :=
  [ "Aries"; "Taurus"; "Gemini"; "Cancer"; "Leo"; "Virgo"; "Libra"; "Scorpio";
    "Sagittarius"; "Capricorn"; "Aquarius"; "Pisces" ]%string.

Section Api.
Context {W : Type}.

Definition GenerateChatResponse (c : GeminiClient W)
  (zodiacSign userMessage : string) : M W (string * option error) :=
  bind (GenerateContent c (buildChatPrompt zodiacSign userMessage))
    (fun r =>
       match r with
       | (_, Some _) => ret (getFallbackChatResponse zodiacSign, None)
       | (response, None) => ret (response, None)
       end).

Definition GenerateInsight (c : GeminiClient W) (chatHistory : string)
  : M W (string * option error) :=
  bind (GenerateContent c (buildInsightPrompt chatHistory))
    (fun r =>
       match r with
       | (_, Some _) => ret (getFallbackInsight, None)
       | (response, None) => ret (response, None)
       end).

End Api.

End Client.

(** What the copy of the package that reads the API key from the environment
    words differently. *)

Module ClientEnv.

Definition fallbacks : list (string * string) :=
  [ ("Aries", "Saya mendengarkan Anda. Keberanian Anda untuk berbagi ini menunjukkan kekuatan sejati. Teruslah maju dengan percaya diri.");
    ("Taurus", "Terima kasih telah berbagi. Kesabaran dan keteguhan Anda akan membawa Anda melewati ini. Percayalah pada prosesnya.");
    ("Gemini", "Saya memahami perspektif Anda. Kemampuan adaptasi Anda adalah kekuatan. Teruslah terbuka terhadap kemungkinan baru.");
    ("Cancer", "Perasaan Anda valid dan penting. Intuisi Anda membimbing Anda dengan baik. Percayalah pada diri sendiri.");
    ("Leo", "Saya menghargai keterbukaan Anda. Kekuatan dan kreativitas Anda akan membantu Anda menemukan jalan. Tetaplah bersinar.");
    ("Virgo", "Terima kasih atas kepercayaan Anda. Analisis dan dedikasi Anda akan membawa kejelasan. Teruslah berusaha.");
    ("Libra", "Saya mendengarkan dengan penuh perhatian. Keseimbangan dan kebijaksanaan Anda akan membantu menemukan harmoni. Tetaplah adil pada diri sendiri.");
    ("Scorpio", "Keberanian Anda untuk menghadapi ini menginspirasi. Kekuatan batin Anda luar biasa. Percayalah pada transformasi.");
    ("Sagittarius", "Optimisme Anda adalah hadiah. Teruslah mencari makna dan pertumbuhan. Petualangan ini akan mengajarkan banyak hal.");
    ("Capricorn", "Disiplin dan tanggung jawab Anda patut dihormati. Teruslah bergerak maju dengan tujuan yang jelas. Anda akan berhasil.");
    ("Aquarius", "Perspektif unik Anda berharga. Teruslah berinovasi dan berpikir bebas. Perubahan dimulai dari dalam.");
    ("Pisces", "Empati dan kreativitas Anda adalah kekuatan. Percayalah pada intuisi artistik Anda. Anda tidak sendirian.") ]%string.

Definition getFallbackChatResponse (zodiacSign : string) : string :=
  match Client.map_lookup fallbacks zodiacSign with
  | Some response => response
  | None => "Saya mendengarkan Anda. Terima kasih telah berbagi perasaan Anda. Anda berani dan kuat."
  end.

Definition buildChatPrompt (zodiacSign userMessage : string) : string :=
  ("You are a " ++ zodiacSign ++ " AI companion with these personality traits: " ++ Client.getZodiacTraits zodiacSign ++ ".

Respond to the user's message with empathy, wisdom, and understanding characteristic of " ++ zodiacSign ++ ".
Be supportive, insightful, and help them reflect on their feelings.

User message: " ++ userMessage ++ "

Respond in a warm, compassionate tone (max 150 words). Speak in Bahasa Indonesia.")%string.

Definition GenerateChatResponse {W : Type} (c : Client.GeminiClient W)
  (zodiacSign userMessage : string) : Client.M W (string * option error) :=
  Client.bind (Client.GenerateContent c (buildChatPrompt zodiacSign userMessage))
    (fun r =>
       match r with
       | (_, Some _) => Client.ret (getFallbackChatResponse zodiacSign, None)
       | (response, None) => Client.ret (response, None)
       end).

End ClientEnv.

(** ** Package [response] and the handler of [POST /ai/chat] *)

Module Response.
Local Open Scope Z_scope.

Definition StatusOK : Z := 200.
Definition StatusBadRequest : Z := 400.
Definition StatusRequestTimeout : Z := 408.
Definition StatusTooManyRequests : Z := 429.
Definition StatusInternalServerError : Z := 500.
Definition StatusServiceUnavailable : Z := 503.

(** The status line and the JSON envelope; [Payload] is the [response]
    field of [data]. *)
Record t : Type := mk {
  Status : Z;
  Success_ : bool;
  Message : string;
  ErrorCode : option string;
  Payload : option string
}.

Definition Success (message payload : string) : t :=
  {| Status := StatusOK; Success_ := true; Message := message;
     ErrorCode := None; Payload := Some payload |}.

Definition BadRequest (message : string) : t :=
  {| Status := StatusBadRequest; Success_ := false; Message := message;
     ErrorCode := Some "BAD_REQUEST"%string; Payload := None |}.

Definition InternalServerError (message : string) : t :=
  {| Status := StatusInternalServerError; Success_ := false; Message := message;
     ErrorCode := Some "INTERNAL_SERVER_ERROR"%string; Payload := None |}.

Definition ServiceUnavailable (message : string) : t :=
  {| Status := StatusServiceUnavailable; Success_ := false; Message := message;
     ErrorCode := Some "SERVICE_UNAVAILABLE"%string; Payload := None |}.

End Response.

Module Handlers.
Import GoTime.
Local Open Scope Z_scope.

(** What the [select] of the handler receives first. *)
Inductive Awaited : Type :=
| Reply (result : Queue.Result)
| DeadlineDone.

(** A handler writes a response, or panics on a failed type assertion. *)
Inductive Return : Type :=
| Responded (r : Response.t)
| Panic.

(** [AIHandler.GenerateChatResponse] of the queue-based handler.  [body] is
    the outcome of [BodyParser] ([None] when it fails), [requestID] the fresh
    UUID, [ctxErr] the request context, [now] the clock at the creation of the
    queue request, [awaited] what arrives after a successful enqueue. *)
Definition GenerateChatResponse {W : Type} (body : option (string * string))
  (requestID : string) (ctxErr : W -> option error) (now : Time)
  (awaited : Awaited) (q : Queue.t W) : Return * Queue.t W :=
  match body with
  | None => (Responded (Response.BadRequest "Invalid request body"), q)
  | Some (zodiacSign, userMessage) =>
      let queueReq :=
        {| Queue.ID := requestID;
           Queue.ReqData := Queue.DataChat zodiacSign userMessage;
           Queue.ContextErr := ctxErr;
           Queue.EnqueueAt := now |} in
      match Queue.Enqueue queueReq q with
      | (Some err, q1) =>
          if decide (err = ErrQueueFull)
          then (Responded
                  {| Response.Status := Response.StatusTooManyRequests;
                     Response.Success_ := false;
                     Response.Message := "Server is busy, please try again later";
                     Response.ErrorCode := None;
                     Response.Payload := None |}, q1)
          else (Responded (Response.InternalServerError "Failed to process request"), q1)
      | (None, q1) =>
          match awaited with
          | Reply result =>
              match Queue.ResultError result with
              | Some _ =>
                  match Queue.ResultData result with
                  | Queue.DataString aiResponse =>
                      if String.eqb aiResponse EmptyString
                      then (Responded (Response.InternalServerError "Failed to generate AI response"), q1)
                      else (Responded (Response.Success "AI response generated (fallback)" aiResponse), q1)
                  | _ => (Responded (Response.InternalServerError "Failed to generate AI response"), q1)
                  end
              | None =>
                  match Queue.ResultData result with
                  | Queue.DataString aiResponse =>
                      (Responded (Response.Success "AI response generated" aiResponse), q1)
                  | _ => (Panic, q1)
                  end
              end
          | DeadlineDone =>
              (Responded
                 {| Response.Status := Response.StatusRequestTimeout;
                    Response.Success_ := false;
                    Response.Message := "Request timeout - please try again";
                    Response.ErrorCode := None;
                    Response.Payload := None |}, q1)
          end
      end
  end.

(** The status of what the handler returned, if it returned. *)
Definition status_of (r : Return) : option Z :=
  match r with
  | Responded resp => Some (Response.Status resp)
  | Panic => None
  end.

End Handlers.

(** ** Reading the outcome of a computation of the AI caller *)

Module Run.

Section WithWorld.
Context {W : Type} {A : Type}.

(** A computation started in the world [w] with an empty log. *)
Definition start (m : Client.M W A) (w : W) : A * (W * list Client.Effect) :=
  m (w, []).

Definition result (m : Client.M W A) (w : W) : A := fst (start m w).
Definition world (m : Client.M W A) (w : W) : W := fst (snd (start m w)).
Definition effects (m : Client.M W A) (w : W) : list Client.Effect :=
  snd (snd (start m w)).

End WithWorld.

Definition is_sleep (e : Client.Effect) : bool :=
  match e with Client.EffSleep _ => true | _ => false end.

Definition is_provider (e : Client.Effect) : bool :=
  match e with Client.EffProvider _ _ => true | _ => false end.

Definition is_gate (e : Client.Effect) : bool :=
  match e with
  | Client.EffBreakerExecute | Client.EffLimiterWait => true
  | _ => false
  end.

(** The delays slept, in order. *)
Definition sleeps (tr : list Client.Effect) : list Client.Effect :=
  List.filter is_sleep tr.

(** The number of calls made to the provider. *)
Definition provider_calls (tr : list Client.Effect) : nat :=
  length (List.filter is_provider tr).

(** A provider that is down: every call returns an error and leaves the
    world, which counts the calls it received, one higher. *)
Definition down : Client.Provider nat :=
  fun _ _ n => (inr (ErrExternal "upstream unavailable"), S n).


(** The client [NewGeminiClient] builds around a provider. *)
Definition default_client {W : Type} (p : Client.Provider W) : Client.GeminiClient W :=
  {| Client.client := p; Client.model := "gemini-2.0-flash-exp";
     Client.maxRetries := 3; Client.baseDelay := GoTime.Second |}.

End Run.

(** ** The rest of package [middleware]: the HTTP wrapper and the sweep *)

Module Ingress.
Import GoTime.
Local Open Scope Z_scope.

(** A value kept in the locals of a request ([interface{}]). *)
Inductive Local : Type :=
| LocalNil
| LocalString (s : string)
| LocalOther.

(** [GetUserID]: the local [user_id] when it is a string, else the empty
    string. *)
Definition GetUserID (user_id : Local) : string :=
  match user_id with
  | LocalString s => s
  | _ => EmptyString
  end.

(** What a middleware does with a request. *)
Inductive Verdict : Type :=
| Next
| Respond (status : Z) (code : string).

(** The identifier [RateLimitMiddleware] limits a request under. *)
Definition identifier_of (ip : string) (user_id : Local) : string :=
  if String.eqb (GetUserID user_id) EmptyString then ip else GetUserID user_id.

(** The handler [RateLimitMiddleware] returns, on a request from the address
    [ip] with the local [user_id], at the instant [now]. *)
Definition RateLimitMiddleware (ip : string) (user_id : Local) (now : Time)
  (rl : Middleware.RateLimiter) : Verdict * Middleware.RateLimiter :=
  let identifier := identifier_of ip user_id in
  match Middleware.allow identifier now rl with
  | (false, rl1) => (Respond 429 "TOO_MANY_REQUESTS", rl1)
  | (true, rl1) => (Next, rl1)
  end.

(** The test of the sweep on one entry: no timestamp, or the last one
    before the window. *)
Definition stale (windowStart : Time) (ts : list Time) : bool :=
  match last ts with
  | None => true
  | Some newest => newest <? windowStart
  end.

(** One pass of [cleanup] at the instant [now]: the stale entries are
    deleted from the map. *)
Definition cleanup (now : Time) (rl : Middleware.RateLimiter) : Middleware.RateLimiter :=
  let windowStart := Add now (GoInt.neg (Middleware.window rl)) in
  Middleware.set_requests
    (filter (fun kv => stale windowStart (snd kv) = false) (Middleware.requests rl))
    rl.

(** Calls of [allow], one after the other: the answers, in order, and the
    limiter left. *)
Fixpoint allow_all (calls : list (string * Time)) (rl : Middleware.RateLimiter)
  : list bool * Middleware.RateLimiter :=
  match calls with
  | [] => ([], rl)
  | (identifier, now) :: rest =>
      let '(ok, rl1) := Middleware.allow identifier now rl in
      let '(oks, rl2) := allow_all rest rl1 in
      (ok :: oks, rl2)
  end.

(** The instants at which the calls of [identifier] were admitted. *)
Fixpoint admitted (identifier : string) (calls : list (string * Time))
  (oks : list bool) : list Time :=
  match calls, oks with
  | (i, now) :: calls', ok :: oks' =>
      if ok && String.eqb i identifier
      then now :: admitted identifier calls' oks'
      else admitted identifier calls' oks'
  | _, _ => []
  end.

(** The clock does not run backwards from one call to the next. *)
Fixpoint monotone (t0 : Time) (calls : list (string * Time)) : Prop :=
  match calls with
  | [] => True
  | (_, now) :: rest => t0 <= now /\ monotone now rest
  end.

(** The middleware on requests that come one after the other, each with its
    address, its local [user_id] and its instant: the verdicts, in order. *)
Fixpoint RateLimitMiddleware_all (reqs : list (string * Local * Time))
  (rl : Middleware.RateLimiter) : list Verdict * Middleware.RateLimiter :=
  match reqs with
  | [] => ([], rl)
  | (ip, user_id, now) :: rest =>
      let '(v, rl1) := RateLimitMiddleware ip user_id now rl in
      let '(vs, rl2) := RateLimitMiddleware_all rest rl1 in
      (v :: vs, rl2)
  end.

(** The instants of the requests that were passed on. *)
Fixpoint passed (reqs : list (string * Local * Time)) (vs : list Verdict)
  : list Time :=
  match reqs, vs with
  | (_, _, now) :: reqs', Next :: vs' => now :: passed reqs' vs'
  | _ :: reqs', _ :: vs' => passed reqs' vs'
  | _, _ => []
  end.

(** The instant lies in the window of length [window] that ends at [s]. *)
Definition in_window (s : Time) (window : Duration) (t : Time) : bool :=
  (s - window <? t) && (t <=? s).

End Ingress.

(** ** Package [utils]: the zodiac sign of a date of birth *)

Module Zodiac.
Local Open Scope Z_scope.

(** [CalculateZodiac] on the month and the day of the date of birth. *)
Definition CalculateZodiac (month day : Z) : string :=
  match month with
  | 1 => if day <=? 19 then "Capricorn" else "Aquarius"
  | 2 => if day <=? 18 then "Aquarius" else "Pisces"
  | 3 => if day <=? 20 then "Pisces" else "Aries"
  | 4 => if day <=? 19 then "Aries" else "Taurus"
  | 5 => if day <=? 20 then "Taurus" else "Gemini"
  | 6 => if day <=? 20 then "Gemini" else "Cancer"
  | 7 => if day <=? 22 then "Cancer" else "Leo"
  | 8 => if day <=? 22 then "Leo" else "Virgo"
  | 9 => if day <=? 22 then "Virgo" else "Libra"
  | 10 => if day <=? 22 then "Libra" else "Scorpio"
  | 11 => if day <=? 21 then "Scorpio" else "Sagittarius"
  | 12 => if day <=? 21 then "Sagittarius" else "Capricorn"
  | _ => "Aries"
  end.

(** The month after [month], December being followed by January. *)
Definition next_month (month : Z) : Z := if month =? 12 then 1 else month + 1.

End Zodiac.

(** ** The AI service: the processor of its queue and its other handlers *)

Module AIService.
Local Open Scope Z_scope.

Section WithWorld.
Context {W : Type}.

(** The processor that [main] gives to the queue.  The two type assertions
    panic on a payload that is not the request map; the log of effects of
    the caller is not kept. *)
Definition processor (geminiClient : Client.GeminiClient W)
  : Queue.RequestProcessor W :=
  fun data w =>
    match data with
    | Queue.DataChat zodiacSign userMessage =>
        let '((response, err), (w1, _)) :=
          Client.GenerateChatResponse geminiClient zodiacSign userMessage (w, []) in
        (Queue.Returned (Queue.DataString response) err, w1)
    | _ => (Queue.Panicked, w)
    end.

(** [AIHandler.GenerateInsight]; [body] is the outcome of [BodyParser].
    [Payload] holds the [insight] field of the answer. *)
Definition GenerateInsight (geminiClient : Client.GeminiClient W)
  (body : option string) (w : W) : Response.t * W :=
  match body with
  | None => (Response.BadRequest "Invalid request body", w)
  | Some chatHistory =>
      match Client.GenerateInsight geminiClient chatHistory (w, []) with
      | ((_, Some _), (w1, _)) =>
          (Response.InternalServerError "Failed to generate insight", w1)
      | ((insight, None), (w1, _)) =>
          (Response.Success "Insight generated" insight, w1)
      end
  end.

(** [AIHandler.GenerateChatResponse] of the handler without a queue, which
    calls the client itself. *)
Definition GenerateChatResponse_direct (geminiClient : Client.GeminiClient W)
  (body : option (string * string)) (w : W) : Response.t * W :=
  match body with
  | None => (Response.BadRequest "Invalid request body", w)
  | Some (zodiacSign, userMessage) =>
      match Client.GenerateChatResponse geminiClient zodiacSign userMessage (w, []) with
      | ((_, Some _), (w1, _)) =>
          (Response.InternalServerError "Failed to generate AI response", w1)
      | ((aiResponse, None), (w1, _)) =>
          (Response.Success "AI response generated" aiResponse, w1)
      end
  end.

End WithWorld.

End AIService.

(** ** Counting what a run of the queue or of the caller did *)

Module Tally.
Local Open Scope Z_scope.

(** The offers among the operations of a run. *)
Definition offers {W : Type} (ops : list (Queue.Op W)) : Z :=
  Z.of_nat (length (List.filter
                      (fun op => match op with Queue.OpEnqueue _ => true | _ => false end)
                      ops)).

Definition has_stop {W : Type} (ops : list (Queue.Op W)) : bool :=
  existsb (fun op => match op with Queue.OpStop => true | _ => false end) ops.

(** [count] dequeues in a row. *)
Definition dequeues {W : Type} (count : nat) : list (Queue.Op W) :=
  repeat Queue.OpDequeue count.

Definition is_timeout (e : Client.Effect) : bool :=
  match e with Client.EffWithTimeout _ => true | _ => false end.

Definition is_cancel (e : Client.Effect) : bool :=
  match e with Client.EffCancel => true | _ => false end.

(** How many effects of a log pass a test. *)
Definition count (f : Client.Effect -> bool) (tr : list Client.Effect) : nat :=
  length (List.filter f tr).

(** What the turn of the retry loop with [attempt = i] does, in the order of
    the loop body: the sleep when [attempt > 0], then [context.WithTimeout],
    the call of the provider and [cancel()]. *)
Definition turn {W : Type} (c : Client.GeminiClient W) (prompt : string) (i : nat)
  : list Client.Effect :=
  (if 0 <? Z.of_nat i
   then [Client.EffSleep (Client.backoff c (Z.of_nat i))]
   else [])
  ++ [ Client.EffWithTimeout (30 * GoTime.Second);
       Client.EffProvider (Client.model c) prompt;
       Client.EffCancel ].

(** The turns with [attempt = 0 .. n-1], one after the other. *)
Definition turns {W : Type} (c : Client.GeminiClient W) (prompt : string) (n : nat)
  : list Client.Effect :=
  concat (map (turn c prompt) (seq 0 n)).

(** A half-open breaker that has just been moved there: no probe counted. *)
Definition admitted_probes (answers : list (option error)) : nat :=
  length (List.filter (fun a => match a with None => true | Some _ => false end) answers).

(** [beforeRequest] called [n] times in a row at the instants [nows]: the
    answers and the breaker left. *)
Fixpoint beforeRequest_all (nows : list GoTime.Time) (cb : CircuitBreaker.t)
  : list (option error) * CircuitBreaker.t :=
  match nows with
  | [] => ([], cb)
  | now :: rest =>
      let '(a, cb1) := CircuitBreaker.beforeRequest now cb in
      let '(answers, cb2) := beforeRequest_all rest cb1 in
      (a :: answers, cb2)
  end.

Definition is_reset (ev : CircuitBreaker.Event) : bool :=
  match ev with CircuitBreaker.EvReset => true | _ => false end.

Definition is_success (ev : CircuitBreaker.Event) : bool :=
  match ev with CircuitBreaker.EvAfter None _ => true | _ => false end.

End Tally.

(** ** Concrete breakers, queues and callers for the examples *)

Module Sample.
Import GoTime.
Local Open Scope Z_scope.

(** The world of the breaker examples is the reading of the clock. *)
Definition clock : Z -> Time := fun w => w.

(** A breaker that opens at the second failure. *)
Definition config2 : CircuitBreaker.Config :=
  {| CircuitBreaker.MaxFailures := 2;
     CircuitBreaker.ResetTimeout := 60 * Second;
     CircuitBreaker.HalfOpenMaxReqs := 1 |}.

(** A call that arrives a second after the previous one and fails a second
    later. *)
Definition failing_call : CircuitBreaker.Call Z :=
  {| CircuitBreaker.arrive := fun w => w + Second;
     CircuitBreaker.fn_of := fun w => (Some (ErrExternal "provider down"), w + Second) |}.

(** A function that succeeds after a second. *)
Definition succeeding : Z -> option error * Z := fun w => (None, w + Second).

(** An open breaker whose last failure was at the instant 0. *)
Definition open_breaker : CircuitBreaker.t :=
  {| CircuitBreaker.maxFailures := 2;
     CircuitBreaker.resetTimeout := 60 * Second;
     CircuitBreaker.halfOpenMaxReqs := 1;
     CircuitBreaker.state := CircuitBreaker.StateOpen;
     CircuitBreaker.failures := 2;
     CircuitBreaker.lastFailureTime := 0;
     CircuitBreaker.halfOpenReqs := 0 |}.

(** A half-open breaker that has handed out its one probe. *)
Definition probing_breaker : CircuitBreaker.t :=
  {| CircuitBreaker.maxFailures := 2;
     CircuitBreaker.resetTimeout := 60 * Second;
     CircuitBreaker.halfOpenMaxReqs := 1;
     CircuitBreaker.state := CircuitBreaker.StateHalfOpen;
     CircuitBreaker.failures := 2;
     CircuitBreaker.lastFailureTime := 0;
     CircuitBreaker.halfOpenReqs := 1 |}.

(** Three callers are admitted while the breaker is closed.  Two fail, at
    10s and 20s, which opens the circuit at 20s; the third fails at 50s. *)
Definition late_failure : list CircuitBreaker.Event :=
  [ CircuitBreaker.EvBefore 0;
    CircuitBreaker.EvBefore 0;
    CircuitBreaker.EvBefore 0;
    CircuitBreaker.EvAfter (Some (ErrExternal "provider down")) (10 * Second);
    CircuitBreaker.EvAfter (Some (ErrExternal "provider down")) (20 * Second);
    CircuitBreaker.EvAfter (Some (ErrExternal "provider down")) (50 * Second) ].

(** A processor that answers every request. *)
Definition processor : Queue.RequestProcessor unit :=
  fun _ w => (Queue.Returned (Queue.DataString "ok") None, w).

Definition request (id : string) : Queue.Request unit :=
  {| Queue.ID := id;
     Queue.ReqData := Queue.DataChat "Leo" "hi";
     Queue.ContextErr := fun _ => None;
     Queue.EnqueueAt := 0 |}.

(** A queue with room for [size] requests. *)
Definition queue_config (size : Z) : Queue.Config unit :=
  {| Queue.QueueSize := size; Queue.Workers := 1;
     Queue.Processor := Some processor |}.

Definition new_queue (size : Z) : Queue.t unit :=
  {| Queue.queue := []; Queue.capacity := size; Queue.processor := processor;
     Queue.workers := 1; Queue.closed := false;
     Queue.totalEnqueued := 0; Queue.totalProcessed := 0;
     Queue.totalFailed := 0; Queue.totalDropped := 0; Queue.inFlight := [] |}.

(** Two requests offered to a queue with room for one. *)
Definition one_dropped : Queue.t unit :=
  fst (Queue.run (new_queue 1, tt)
         [Queue.OpEnqueue (request "a"); Queue.OpEnqueue (request "b")]).

(** A queue that holds one request and has been stopped. *)
Definition stopped_queue : Queue.t unit :=
  fst (Queue.run (new_queue 1, tt) [Queue.OpEnqueue (request "a"); Queue.OpStop]).

(** A queue that is full. *)
Definition full_queue : Queue.t unit :=
  fst (Queue.run (new_queue 1, tt) [Queue.OpEnqueue (request "a")]).

(** A limiter of two requests per ten nanoseconds that has admitted the
    identifier [u] at the instants 85, 95 and 99. *)
Definition limiter : Middleware.RateLimiter :=
  snd (Middleware.allow "u" 99
         (snd (Middleware.allow "u" 95
                 (snd (Middleware.allow "u" 85 (Middleware.NewRateLimiter 2 10)))))).

End Sample.

(** The queue of the AI service, new, with room for one request, in front of
    a provider that is down. *)
Module SampleService.

Definition ai_queue : Queue.t nat :=
  {| Queue.queue := []; Queue.capacity := 1;
     Queue.processor := AIService.processor (Run.default_client Run.down);
     Queue.workers := 10; Queue.closed := false;
     Queue.totalEnqueued := 0; Queue.totalProcessed := 0;
     Queue.totalFailed := 0; Queue.totalDropped := 0; Queue.inFlight := [] |}.

End SampleService.

(** * Properties *)

(** ** Machine integers and instants *)

Section GoIntFacts.
Local Open Scope Z_scope.

Lemma wrap64_id (z : Z) : GoInt.is_int64 z -> GoInt.wrap64 z = z.
Proof.
  unfold GoInt.is_int64, GoInt.minInt64, GoInt.maxInt64, GoInt.wrap64.
  intros H. rewrite Z.mod_small by lia. lia.
Qed.

Lemma incr_no_wrap (x : Z) :
  GoInt.minInt64 <= x < GoInt.maxInt64 -> GoInt.incr x = x + 1.
Proof.
  intros H. unfold GoInt.incr. apply wrap64_id.
  unfold GoInt.is_int64, GoInt.minInt64, GoInt.maxInt64 in *. lia.
Qed.

Lemma incr_at_max : GoInt.incr GoInt.maxInt64 = GoInt.minInt64.
Proof. reflexivity. Qed.

Lemma incr_nonneg_nonzero (x : Z) :
  0 <= x <= GoInt.maxInt64 -> GoInt.incr x <> 0.
Proof.
  intros [H0 H1]. destruct (Z.eq_dec x GoInt.maxInt64) as [-> | Hne].
  - rewrite incr_at_max. discriminate.
  - rewrite incr_no_wrap; unfold GoInt.minInt64, GoInt.maxInt64 in *; lia.
Qed.

Lemma neg_no_wrap (d : Z) : 0 <= d <= GoInt.maxInt64 -> GoInt.neg d = - d.
Proof.
  intros H. unfold GoInt.neg. apply wrap64_id.
  unfold GoInt.is_int64, GoInt.minInt64, GoInt.maxInt64 in *. lia.
Qed.

(** Below the largest duration, the saturated difference compares like the
    exact one. *)
Lemma Since_gt (now last d : Z) :
  GoInt.minInt64 <= d < GoInt.maxInt64 ->
  (d < GoTime.Since now last <-> d < now - last).
Proof.
  unfold GoTime.Since, GoTime.Sub, GoInt.minInt64, GoInt.maxInt64. lia.
Qed.

End GoIntFacts.

(** ** The circuit breaker *)

(** Case analysis on every test the goal branches on. *)
Ltac split_ifs :=
  repeat match goal with |- context [if ?b then _ else _] => destruct b end.

Section BreakerSteps.
Import CircuitBreaker.
Local Open Scope Z_scope.

Lemma NewCircuitBreaker_closed (config : Config) :
  state (NewCircuitBreaker config) = StateClosed
  /\ failures (NewCircuitBreaker config) = 0
  /\ halfOpenReqs (NewCircuitBreaker config) = 0.
Proof. repeat split. Qed.

Lemma NewCircuitBreaker_maxFailures (config : Config) :
  1 <= maxFailures (NewCircuitBreaker config)
  /\ (GoInt.is_int64 (MaxFailures config) ->
      maxFailures (NewCircuitBreaker config) <= GoInt.maxInt64).
Proof.
  unfold NewCircuitBreaker, GoInt.is_int64, GoInt.maxInt64; simpl.
  destruct (Z.leb_spec (MaxFailures config) 0); split; lia.
Qed.

(** The three configuration fields are never written after construction. *)
Lemma step_config (cb : t) (ev : Event) :
  maxFailures (step cb ev) = maxFailures cb
  /\ resetTimeout (step cb ev) = resetTimeout cb
  /\ halfOpenMaxReqs (step cb ev) = halfOpenMaxReqs cb.
Proof.
  destruct ev as [now | [e |] now |]; simpl;
    unfold beforeRequest, afterRequest; simpl;
    destruct (state cb); simpl;
    split_ifs;
    simpl; auto.
Qed.

Lemma run_config (tr : list Event) (cb : t) :
  maxFailures (run cb tr) = maxFailures cb
  /\ resetTimeout (run cb tr) = resetTimeout cb
  /\ halfOpenMaxReqs (run cb tr) = halfOpenMaxReqs cb.
Proof.
  revert cb. induction tr as [| ev tr IH]; intros cb; [now simpl |].
  simpl. destruct (IH (step cb ev)) as (H1 & H2 & H3).
  destruct (step_config cb ev) as (K1 & K2 & K3).
  unfold run in *. simpl. rewrite H1, H2, H3. auto.
Qed.

(** While the breaker is closed the failure counter stays below the
    threshold: one step keeps it so. *)
Lemma step_closed_counter (cb : t) (ev : Event) :
  1 <= maxFailures cb <= GoInt.maxInt64 ->
  (state cb = StateClosed -> 0 <= failures cb < maxFailures cb) ->
  state (step cb ev) = StateClosed ->
  0 <= failures (step cb ev) < maxFailures cb.
Proof.
  intros Hm Hinv.
  destruct ev as [now | [e |] now |]; simpl;
    unfold beforeRequest, afterRequest; simpl.
  - destruct (state cb) eqn:Hs; simpl.
    + intros _. auto.
    + destruct (_ <? _); simpl; rewrite ?Hs; discriminate.
    + destruct (_ <=? _); simpl; rewrite ?Hs; discriminate.
  - destruct (state cb) eqn:Hs; simpl.
    + specialize (Hinv eq_refl).
      rewrite incr_no_wrap by (unfold GoInt.minInt64, GoInt.maxInt64 in *; lia).
      destruct (Z.leb_spec (maxFailures cb) (failures cb + 1)); simpl;
        rewrite ?Hs; [discriminate | intros _; lia].
    + destruct (_ <=? _); simpl; rewrite ?Hs; discriminate.
    + discriminate.
  - destruct (state cb) eqn:Hs; simpl; rewrite ?Hs.
    + intros _. lia.
    + discriminate.
    + intros _. lia.
  - intros _. lia.
Qed.

Lemma run_closed_counter (tr : list Event) (cb : t) :
  1 <= maxFailures cb <= GoInt.maxInt64 ->
  (state cb = StateClosed -> 0 <= failures cb < maxFailures cb) ->
  state (run cb tr) = StateClosed ->
  0 <= failures (run cb tr) < maxFailures cb.
Proof.
  revert cb. induction tr as [| ev tr IH]; intros cb Hm Hinv; [exact Hinv |].
  unfold run in *. simpl. intros Hc.
  destruct (step_config cb ev) as (K1 & _).
  rewrite <- K1. apply IH; rewrite ?K1; auto.
  intros Hs. apply step_closed_counter; auto.
Qed.

(** A failed call stamps the instant and counts one more failure. *)
Lemma afterRequest_failure (e : error) (now : GoTime.Time) (cb : t) :
  lastFailureTime (afterRequest (Some e) now cb) = now
  /\ failures (afterRequest (Some e) now cb) = GoInt.incr (failures cb).
Proof.
  unfold afterRequest; simpl.
  destruct (state cb); simpl;
    split_ifs;
    simpl; auto.
Qed.

(** Only a failed call writes [lastFailureTime]. *)
Lemma step_lastFailureTime (cb : t) (ev : Event) :
  lastFailureTime (step cb ev) =
  match ev with
  | EvAfter (Some _) now => now
  | _ => lastFailureTime cb
  end.
Proof.
  destruct ev as [now | [e |] now |]; unfold step.
  - unfold beforeRequest. destruct (state cb); simpl;
      split_ifs;
      reflexivity.
  - exact (proj1 (afterRequest_failure e now cb)).
  - unfold afterRequest. destruct (state cb); reflexivity.
  - reflexivity.
Qed.

Lemma run_lastFailureTime (tr : list Event) (cb : t) (acc : option GoTime.Time) :
  lastFailureTime cb = default zeroTime acc ->
  lastFailureTime (run cb tr) = default zeroTime (last_failure tr acc).
Proof.
  revert cb acc. induction tr as [| ev tr IH]; intros cb acc Hacc; [exact Hacc |].
  unfold run in *. simpl.
  destruct ev as [now | [e |] now |]; apply IH;
    rewrite step_lastFailureTime; auto.
Qed.

End BreakerSteps.

Section BreakerExecute.
Import CircuitBreaker.
Local Open Scope Z_scope.
Context {W : Type} (clock : W -> GoTime.Time).

(** On the admitted path [Execute] applies [fn] once and reports its result
    to [afterRequest] at the instant [fn] returns. *)
Lemma Execute_admitted (fn : W -> option error * W) (cb : t) (w : W) :
  fst (beforeRequest (clock w) cb) = None ->
  Execute clock fn cb w =
  (fst (fn w),
   afterRequest (fst (fn w)) (clock (snd (fn w))) (snd (beforeRequest (clock w) cb)),
   snd (fn w)).
Proof.
  unfold Execute. destruct (beforeRequest (clock w) cb) as [[e |] cb1]; simpl.
  - discriminate.
  - intros _. destruct (fn w) as [r w1]. reflexivity.
Qed.

(** On the rejected path nothing but the error comes back. *)
Lemma Execute_rejected (fn : W -> option error * W) (cb : t) (w : W) (e : error) :
  beforeRequest (clock w) cb = (Some e, cb) ->
  Execute clock fn cb w = (Some e, cb, w).
Proof. unfold Execute. intros ->. reflexivity. Qed.

Lemma Execute_failing_from_open (fn : W -> option error * W) (cb : t) (w : W) :
  fails fn -> state cb = StateOpen ->
  state (snd (fst (Execute clock fn cb w))) = StateOpen.
Proof.
  intros Hf Hs. unfold Execute, beforeRequest. rewrite Hs.
  destruct (_ <? _); simpl; [| exact Hs].
  specialize (Hf w). destruct (fn w) as [[e |] w1]; simpl in *; [reflexivity | congruence].
Qed.

Lemma open_stays_open (calls : list (Call W)) (cb : t) (w : W) :
  Forall (fun c => fails (fn_of c)) calls ->
  state cb = StateOpen ->
  state (fst (Execute_all clock calls cb w)) = StateOpen.
Proof.
  revert cb w. induction calls as [| c rest IH]; intros cb w Hall Hs; [exact Hs |].
  inversion Hall as [| ? ? Hc Hrest]; subst. simpl.
  pose proof (Execute_failing_from_open (fn_of c) cb (arrive c w) Hc Hs) as Ho.
  destruct (Execute clock (fn_of c) cb (arrive c w)) as [[r cb1] w1]; simpl in *.
  apply IH; assumption.
Qed.

(** From a closed breaker whose counter is [k] short of the threshold, [k]
    failed calls, or more, open it. *)
Lemma failures_open (calls : list (Call W)) (cb : t) (w : W) :
  Forall (fun c => fails (fn_of c)) calls ->
  state cb = StateClosed ->
  0 <= failures cb < maxFailures cb ->
  maxFailures cb <= GoInt.maxInt64 ->
  maxFailures cb - failures cb <= Z.of_nat (length calls) ->
  state (fst (Execute_all clock calls cb w)) = StateOpen.
Proof.
  revert cb w. induction calls as [| c rest IH]; intros cb w Hall Hs Hf Hmax Hlen.
  - simpl in Hlen. lia.
  - inversion Hall as [| ? ? Hc Hrest]; subst. simpl.
    rewrite Execute_admitted by (unfold beforeRequest; rewrite Hs; reflexivity).
    unfold beforeRequest at 1. rewrite Hs. simpl.
    specialize (Hc (arrive c w)).
    destruct (fn_of c (arrive c w)) as [[e |] w1]; simpl in *; [| congruence].
    unfold afterRequest; simpl. rewrite Hs.
    rewrite incr_no_wrap by (unfold GoInt.minInt64, GoInt.maxInt64 in *; lia).
    destruct (Z.leb_spec (maxFailures cb) (failures cb + 1)).
    + apply open_stays_open; [assumption | reflexivity].
    + apply IH; simpl in *; try assumption; lia.
Qed.

(** C8. [Execute] fails fast without invoking the protected function.  When
    the breaker is open and less than [resetTimeout] has passed since the last
    failure, [Execute] returns the circuit-open error; when it is half-open
    and the probe counter has reached [halfOpenMaxReqs], it returns the
    too-many-requests error.  In both cases the breaker is unchanged, and the
    world that comes back is the world that went in whatever [fn] would have
    done to it: [fn] was not called. *)
Theorem Execute_fails_fast (fn : W -> option error * W) (cb : t) (w : W) :
  (state cb = StateOpen ->
   GoTime.Since (clock w) (lastFailureTime cb) < resetTimeout cb ->
   Execute clock fn cb w = (Some ErrCircuitOpen, cb, w))
  /\ (state cb = StateHalfOpen ->
      halfOpenMaxReqs cb <= halfOpenReqs cb ->
      Execute clock fn cb w = (Some ErrTooManyRequests, cb, w)).
Proof.
  split; intros Hs Hc; apply Execute_rejected; unfold beforeRequest; rewrite Hs.
  - destruct (Z.ltb_spec (resetTimeout cb) (GoTime.Since (clock w) (lastFailureTime cb)));
      [lia | reflexivity].
  - destruct (Z.leb_spec (halfOpenMaxReqs cb) (halfOpenReqs cb)); [reflexivity | lia].
Qed.

(** At the boundary, exactly [resetTimeout] after the last failure, the call
    is still rejected. *)
Lemma Execute_rejects_at_timeout (fn : W -> option error * W) (cb : t) (w : W) :
  state cb = StateOpen ->
  GoTime.Since (clock w) (lastFailureTime cb) <= resetTimeout cb ->
  Execute clock fn cb w = (Some ErrCircuitOpen, cb, w).
Proof.
  intros Hs Hc. apply Execute_rejected. unfold beforeRequest. rewrite Hs.
  destruct (Z.ltb_spec (resetTimeout cb) (GoTime.Since (clock w) (lastFailureTime cb)));
    [lia | reflexivity].
Qed.

(** C3. Recovery.  Take a breaker that is closed, after any history since its
    construction.  [maxFailures] calls in a row whose function fails leave it
    open.  A call that then arrives more than [resetTimeout] after the last
    failure is admitted: [beforeRequest] moves to half-open with the probe
    counter at zero, and [Execute] runs the function.  If the probe succeeds
    the breaker is closed with both counters at zero and admits every later
    call; if it fails the breaker is open again. *)
Theorem breaker_recovery (config : Config) (history : list Event)
  (calls : list (Call W)) (w : W) :
  GoInt.is_int64 (MaxFailures config) ->
  state (run (NewCircuitBreaker config) history) = StateClosed ->
  Z.of_nat (length calls) = maxFailures (NewCircuitBreaker config) ->
  Forall (fun c => fails (fn_of c)) calls ->
  let cb1 := fst (Execute_all clock calls (run (NewCircuitBreaker config) history) w) in
  state cb1 = StateOpen
  /\ forall (probe : W -> option error * W) (w2 : W),
       resetTimeout cb1 < GoTime.Since (clock w2) (lastFailureTime cb1) ->
       let half := set_halfOpenReqs 0 (set_state StateHalfOpen cb1) in
       let cb2 := afterRequest (fst (probe w2)) (clock (snd (probe w2))) half in
       beforeRequest (clock w2) cb1 = (None, half)
       /\ Execute clock probe cb1 w2 = (fst (probe w2), cb2, snd (probe w2))
       /\ (fst (probe w2) = None ->
           state cb2 = StateClosed /\ failures cb2 = 0 /\ halfOpenReqs cb2 = 0
           /\ forall now, beforeRequest now cb2 = (None, cb2))
       /\ (fst (probe w2) <> None -> state cb2 = StateOpen).
Proof.
  intros Hint Hclosed Hlen Hall cb1.
  destruct (NewCircuitBreaker_maxFailures config) as [Hm1 Hm2].
  specialize (Hm2 Hint).
  destruct (run_config history (NewCircuitBreaker config)) as (Kmf & _ & _).
  assert (Hopen : state cb1 = StateOpen).
  { subst cb1. apply failures_open; try assumption.
    - rewrite Kmf. apply run_closed_counter; try assumption; [lia |].
      intros _. change (failures (NewCircuitBreaker config)) with 0. lia.
    - rewrite Kmf. assumption.
    - rewrite Kmf.
      assert (0 <= failures (run (NewCircuitBreaker config) history)).
      { apply run_closed_counter; try assumption; [lia |].
        intros _. change (failures (NewCircuitBreaker config)) with 0. lia. }
      lia. }
  split; [exact Hopen |].
  intros probe w2 Hlate half cb2.
  assert (Hbefore : beforeRequest (clock w2) cb1 = (None, half)).
  { unfold beforeRequest. rewrite Hopen.
    destruct (Z.ltb_spec (resetTimeout cb1) (GoTime.Since (clock w2) (lastFailureTime cb1)));
      [reflexivity | lia]. }
  split; [exact Hbefore |].
  split.
  { rewrite Execute_admitted by (rewrite Hbefore; reflexivity).
    rewrite Hbefore. reflexivity. }
  subst cb2. split.
  - intros ->. simpl. repeat split.
  - destruct (fst (probe w2)) as [e |]; [intros _; reflexivity | congruence].
Qed.

End BreakerExecute.

Section BreakerClaims.
Import CircuitBreaker.
Local Open Scope Z_scope.

Lemma Execute_fails_fast_witness :
  Execute Sample.clock Sample.succeeding Sample.open_breaker (30 * GoTime.Second)
  = (Some ErrCircuitOpen, Sample.open_breaker, 30 * GoTime.Second)
  /\ Execute Sample.clock Sample.succeeding Sample.probing_breaker (30 * GoTime.Second)
     = (Some ErrTooManyRequests, Sample.probing_breaker, 30 * GoTime.Second).
Proof.
  split.
  - apply (proj1 (Execute_fails_fast Sample.clock Sample.succeeding
                    Sample.open_breaker (30 * GoTime.Second))).
    + reflexivity.
    + vm_compute. reflexivity.
  - apply (proj2 (Execute_fails_fast Sample.clock Sample.succeeding
                    Sample.probing_breaker (30 * GoTime.Second))).
    + reflexivity.
    + vm_compute. discriminate.
Defined.

Lemma breaker_recovery_witness :
  state (fst (Execute_all Sample.clock [Sample.failing_call; Sample.failing_call]
                (NewCircuitBreaker Sample.config2) 0)) = StateOpen
  /\ Execute Sample.clock Sample.succeeding
       (fst (Execute_all Sample.clock [Sample.failing_call; Sample.failing_call]
               (NewCircuitBreaker Sample.config2) 0))
       (100 * GoTime.Second)
     = (None,
        set_lastFailureTime (4 * GoTime.Second) (NewCircuitBreaker Sample.config2),
        101 * GoTime.Second).
Proof.
  assert (Hint : GoInt.is_int64 (MaxFailures Sample.config2)).
  { vm_compute. split; discriminate. }
  assert (Hall : Forall (fun c : Call Z => fails (fn_of c))
                   [Sample.failing_call; Sample.failing_call]).
  { repeat constructor; intros w; discriminate. }
  destruct (breaker_recovery Sample.clock Sample.config2 []
              [Sample.failing_call; Sample.failing_call] 0
              Hint eq_refl eq_refl Hall) as [Hopen Hprobe].
  split; [exact Hopen |].
  destruct (Hprobe Sample.succeeding (100 * GoTime.Second)) as (_ & Hexec & _).
  - vm_compute. reflexivity.
  - change (run (NewCircuitBreaker Sample.config2) []) with
      (NewCircuitBreaker Sample.config2) in Hexec.
    rewrite Hexec. reflexivity.
Defined.

(** C10. The failure bookkeeping never resets on failure.  A failed call
    stamps [lastFailureTime] with its own instant and moves the failure
    counter one up, never to zero; the counter goes to zero only in a
    successful call made while closed or half-open, or in [Reset].  So after
    every history the stamp is the instant of the most recent failure, and an
    open breaker admits a call exactly when more than [resetTimeout] has
    passed since that failure, whenever the circuit opened. *)
Theorem failure_bookkeeping (config : Config) (history : list Event) :
  (forall e now c,
     lastFailureTime (afterRequest (Some e) now c) = now
     /\ failures (afterRequest (Some e) now c) = GoInt.incr (failures c))
  /\ (forall e now c,
        0 <= failures c <= GoInt.maxInt64 ->
        failures (afterRequest (Some e) now c) <> 0)
  /\ (forall c ev,
        0 <= failures c <= GoInt.maxInt64 ->
        failures c <> 0 ->
        failures (step c ev) = 0 ->
        ev = EvReset
        \/ exists now, ev = EvAfter None now
                       /\ (state c = StateClosed \/ state c = StateHalfOpen))
  /\ lastFailureTime (run (NewCircuitBreaker config) history)
     = default zeroTime (last_failure history None)
  /\ (forall now,
        state (run (NewCircuitBreaker config) history) = StateOpen ->
        (fst (beforeRequest now (run (NewCircuitBreaker config) history)) = None
         <-> resetTimeout (run (NewCircuitBreaker config) history)
             < GoTime.Since now (default zeroTime (last_failure history None)))).
Proof.
  assert (Hstamp : lastFailureTime (run (NewCircuitBreaker config) history)
                   = default zeroTime (last_failure history None)).
  { apply run_lastFailureTime. reflexivity. }
  split; [intros e now c; apply afterRequest_failure |].
  split.
  { intros e now c Hf.
    rewrite (proj2 (afterRequest_failure e now c)).
    apply incr_nonneg_nonzero. exact Hf. }
  split.
  { intros c ev Hf Hnz Hz. destruct ev as [now | [e |] now |].
    - exfalso. apply Hnz. revert Hz. unfold step, beforeRequest.
      destruct (state c); simpl;
        split_ifs;
        simpl; auto.
    - exfalso.
      change (step c (EvAfter (Some e) now)) with (afterRequest (Some e) now c) in Hz.
      rewrite (proj2 (afterRequest_failure e now c)) in Hz.
      exact (incr_nonneg_nonzero _ Hf Hz).
    - right. exists now. split; [reflexivity |].
      destruct (state c) eqn:Hs; auto.
      exfalso. apply Hnz. revert Hz. unfold step, afterRequest. rewrite Hs. auto.
    - left. reflexivity. }
  split; [exact Hstamp |].
  intros now Hopen. rewrite <- Hstamp.
  unfold beforeRequest. rewrite Hopen.
  destruct (Z.ltb_spec
              (resetTimeout (run (NewCircuitBreaker config) history))
              (GoTime.Since now (lastFailureTime (run (NewCircuitBreaker config) history))));
    simpl; split; intros H1; try assumption; try reflexivity; try discriminate; lia.
Qed.

(** The circuit of [Sample.late_failure] opened at 20s and saw its last
    failure at 50s.  A call at 100s, 80s after the opening, is rejected; a
    call at 111s, more than 60s after the last failure, is admitted. *)
Lemma failure_bookkeeping_witness :
  lastFailureTime (run (NewCircuitBreaker Sample.config2) Sample.late_failure)
  = 50 * GoTime.Second
  /\ fst (beforeRequest (100 * GoTime.Second)
            (run (NewCircuitBreaker Sample.config2) Sample.late_failure))
     <> None
  /\ fst (beforeRequest (111 * GoTime.Second)
            (run (NewCircuitBreaker Sample.config2) Sample.late_failure))
     = None.
Proof.
  destruct (failure_bookkeeping Sample.config2 Sample.late_failure)
    as (_ & _ & _ & Hstamp & Hadmit).
  split; [exact Hstamp |].
  split.
  - intros Hnone.
    apply (proj1 (Hadmit (100 * GoTime.Second) eq_refl)) in Hnone.
    vm_compute in Hnone. discriminate.
  - apply (proj2 (Hadmit (111 * GoTime.Second) eq_refl)).
    vm_compute. reflexivity.
Defined.

End BreakerClaims.

(** ** The bounded queue *)

Section QueueFacts.
Import Queue.
Local Open Scope Z_scope.
Context {W : Type}.

Lemma NewRequestQueue_fresh (config : Config W) (q0 : t W) :
  NewRequestQueue config = Some q0 ->
  queue q0 = [] /\ inFlight q0 = [] /\ closed q0 = false
  /\ capacity q0 = (if QueueSize config <=? 0 then 1000 else QueueSize config)
  /\ totalEnqueued q0 = 0 /\ totalProcessed q0 = 0
  /\ totalFailed q0 = 0 /\ totalDropped q0 = 0.
Proof.
  unfold NewRequestQueue. destruct (Processor config); [| discriminate].
  intros [= <-]. simpl. repeat split.
Qed.

(** [Enqueue] is one test and one offer: it ends with one of three outcomes. *)
Lemma Enqueue_outcomes (req : Request W) (q : t W) :
  fst (Enqueue req q) = None
  \/ fst (Enqueue req q) = Some ErrQueueFull
  \/ fst (Enqueue req q) = Some ErrQueueClosed.
Proof.
  unfold Enqueue. destruct (closed q); [auto |].
  destruct (_ <? _); auto.
Qed.

Lemma Enqueue_full (req : Request W) (q : t W) :
  closed q = false -> QueueSize_of q = capacity q ->
  Enqueue req q = (Some ErrQueueFull, set_totalDropped (GoInt.incr (totalDropped q)) q).
Proof.
  intros Hc Hd. unfold Enqueue. rewrite Hc, Hd, Z.ltb_irrefl. reflexivity.
Qed.

Lemma processRequest_queue (req : Request W) (q : t W) (w : W) :
  queue (fst (fst (processRequest req q w))) = queue q
  /\ capacity (fst (fst (processRequest req q w))) = capacity q
  /\ closed (fst (fst (processRequest req q w))) = closed q
  /\ inFlight (fst (fst (processRequest req q w))) = inFlight q.
Proof.
  unfold processRequest. destruct (ContextErr req w); [now simpl |].
  destruct (processor q (ReqData req) w) as [[result [e |] |] w1]; now simpl.
Qed.

Lemma step_capacity (st : t W * W) (op : Op W) :
  capacity (fst (step st op)) = capacity (fst st).
Proof.
  destruct st as [q w]. destruct op as [req | | i |]; simpl.
  - unfold Enqueue. destruct (closed q); [reflexivity |].
    destruct (_ <? _); reflexivity.
  - unfold dequeue. destruct (queue q); reflexivity.
  - destruct (inFlight q !! i) as [req |]; [| reflexivity].
    pose proof (processRequest_queue req (set_inFlight (delete i (inFlight q)) q) w) as (_ & Hc & _).
    destruct (processRequest _ _ _) as [[q1 r] w1]. simpl in *. exact Hc.
  - unfold Stop. destruct (closed q); reflexivity.
Qed.

Lemma run_capacity (ops : list (Op W)) (st : t W * W) :
  capacity (fst (run st ops)) = capacity (fst st).
Proof.
  revert st. induction ops as [| op ops IH]; intros st; [reflexivity |].
  change (run st (op :: ops)) with (run (step st op) ops).
  rewrite IH. apply step_capacity.
Qed.

Lemma step_depth (st : t W * W) (op : Op W) :
  QueueSize_of (fst st) <= capacity (fst st) ->
  QueueSize_of (fst (step st op)) <= capacity (fst st).
Proof.
  destruct st as [q w]. unfold QueueSize_of. destruct op as [req | | i |]; simpl; intros Hb.
  - unfold Enqueue. destruct (closed q); [exact Hb |].
    unfold QueueSize_of.
    destruct (Z.ltb_spec (Z.of_nat (length (queue q))) (capacity q)); simpl; [| exact Hb].
    rewrite length_app. simpl. lia.
  - unfold dequeue. destruct (queue q) as [| r rest] eqn:Hq; simpl in *; [rewrite Hq; exact Hb | lia].
  - destruct (inFlight q !! i) as [req |]; [| exact Hb].
    pose proof (processRequest_queue req (set_inFlight (delete i (inFlight q)) q) w) as (Hq & _).
    destruct (processRequest _ _ _) as [[q1 r] w1]. simpl in *. rewrite Hq. exact Hb.
  - unfold Stop. destruct (closed q); exact Hb.
Qed.

Lemma run_depth (ops : list (Op W)) (st : t W * W) :
  QueueSize_of (fst st) <= capacity (fst st) ->
  QueueSize_of (fst (run st ops)) <= capacity (fst st).
Proof.
  revert st. induction ops as [| op ops IH]; intros st Hb; [exact Hb |].
  unfold run in *. simpl. rewrite <- (step_capacity st op).
  apply IH. rewrite step_capacity. apply step_depth. exact Hb.
Qed.

(** Offers to a running queue that nobody reads: the buffer takes the first
    ones until it is full and the rest are turned away. *)
Lemma enqueues_fill (reqs : list (Request W)) (q : t W) (w : W) :
  closed q = false ->
  QueueSize_of q <= capacity q ->
  closed (fst (run (q, w) (map OpEnqueue reqs))) = false
  /\ capacity (fst (run (q, w) (map OpEnqueue reqs))) = capacity q
  /\ queue (fst (run (q, w) (map OpEnqueue reqs)))
     = firstn (Z.to_nat (capacity q)) (queue q ++ reqs).
Proof.
  revert q. induction reqs as [| r rest IH]; intros q Hc Hb.
  - simpl. repeat split; [exact Hc |].
    rewrite app_nil_r, firstn_all2; [reflexivity |]. unfold QueueSize_of in Hb. lia.
  - change (run (q, w) (map OpEnqueue (r :: rest)))
      with (run (snd (Enqueue r q), w) (map OpEnqueue rest)).
    unfold Enqueue. rewrite Hc. unfold QueueSize_of in *.
    destruct (Z.ltb_spec (Z.of_nat (length (queue q))) (capacity q)) as [Hlt | Hge];
      cbn [snd].
    + destruct (IH (set_totalEnqueued (GoInt.incr (totalEnqueued q))
                      (set_queue (queue q ++ [r]) q))) as (H1 & H2 & H3).
      * exact Hc.
      * simpl. rewrite length_app. simpl. lia.
      * repeat split; [exact H1 | exact H2 |].
        rewrite H3. simpl. rewrite <- app_assoc. reflexivity.
    + destruct (IH (set_totalDropped (GoInt.incr (totalDropped q)) q)) as (H1 & H2 & H3).
      * exact Hc.
      * exact Hb.
      * repeat split; [exact H1 | exact H2 |].
        rewrite H3. simpl.
        assert (Hlen : length (queue q) = Z.to_nat (capacity q)) by lia.
        rewrite <- Hlen. rewrite !firstn_app, !firstn_all, Nat.sub_diag. reflexivity.
Qed.

(** C2. The queue is bounded and [Enqueue] does not wait.  The capacity is
    the configured size, 1000 when none is given.  [Enqueue] ends with nil,
    the queue-full error or the queue-closed error.  After every sequence of
    operations the depth is at most the capacity.  After a sequence of
    offers of which the capacity's worth were taken and none was dequeued,
    the queue holds exactly the first [Q] of them and the next [Enqueue]
    returns the queue-full error, changing only the dropped counter.  More
    generally, whenever a queue that has not been stopped holds [Q]
    requests, whatever operations led there, the next [Enqueue] does so. *)
Theorem queue_bound (config : Config W) (q0 : t W) :
  NewRequestQueue config = Some q0 ->
  capacity q0 = (if QueueSize config <=? 0 then 1000 else QueueSize config)
  /\ (forall (req : Request W) (q : t W),
        fst (Enqueue req q) = None
        \/ fst (Enqueue req q) = Some ErrQueueFull
        \/ fst (Enqueue req q) = Some ErrQueueClosed)
  /\ (forall (ops : list (Op W)) (w : W),
        QueueSize_of (fst (run (q0, w) ops)) <= capacity q0)
  /\ (forall (reqs : list (Request W)) (w : W) (req : Request W),
        capacity q0 <= Z.of_nat (length reqs) ->
        queue (fst (run (q0, w) (map OpEnqueue reqs)))
        = firstn (Z.to_nat (capacity q0)) reqs
        /\ QueueSize_of (fst (run (q0, w) (map OpEnqueue reqs))) = capacity q0
        /\ Enqueue req (fst (run (q0, w) (map OpEnqueue reqs)))
           = (Some ErrQueueFull,
              set_totalDropped
                (GoInt.incr (totalDropped (fst (run (q0, w) (map OpEnqueue reqs)))))
                (fst (run (q0, w) (map OpEnqueue reqs)))))
  /\ (forall (ops : list (Op W)) (w : W) (req : Request W),
        closed (fst (run (q0, w) ops)) = false ->
        QueueSize_of (fst (run (q0, w) ops)) = capacity q0 ->
        Enqueue req (fst (run (q0, w) ops))
        = (Some ErrQueueFull,
           set_totalDropped (GoInt.incr (totalDropped (fst (run (q0, w) ops))))
             (fst (run (q0, w) ops)))).
Proof.
  intros Hnew.
  destruct (NewRequestQueue_fresh config q0 Hnew) as (Hq & _ & Hc & Hcap & _).
  assert (Hpos : 0 < capacity q0).
  { rewrite Hcap. destruct (Z.leb_spec (QueueSize config) 0); lia. }
  assert (Hb0 : QueueSize_of q0 <= capacity q0).
  { unfold QueueSize_of. rewrite Hq. simpl. lia. }
  split; [exact Hcap |].
  split; [apply Enqueue_outcomes |].
  split; [intros ops w; apply (run_depth ops (q0, w)); exact Hb0 |].
  split.
  - intros reqs w req Hlen.
    destruct (enqueues_fill reqs q0 w Hc Hb0) as (H1 & H2 & H3).
    rewrite Hq in H3. simpl in H3.
    assert (Hd : QueueSize_of (fst (run (q0, w) (map OpEnqueue reqs))) = capacity q0).
    { unfold QueueSize_of. rewrite H3, length_firstn. lia. }
    split; [exact H3 |]. split; [exact Hd |].
    apply Enqueue_full; [exact H1 | rewrite Hd, H2; reflexivity].
  - intros ops w req Hopen Hd.
    apply Enqueue_full; [exact Hopen |].
    rewrite Hd, (run_capacity ops (q0, w)). reflexivity.
Qed.

End QueueFacts.

Section QueueMetrics.
Import Queue.
Local Open Scope Z_scope.
Context {W : Type}.

Lemma incr_counter (n x : Z) :
  0 <= n < GoInt.maxInt64 -> 0 <= x <= n -> GoInt.incr x = x + 1.
Proof.
  intros Hn Hx. apply incr_no_wrap.
  unfold GoInt.minInt64, GoInt.maxInt64 in *. lia.
Qed.

(** One operation keeps the balance, and moves no counter by more than one. *)
Lemma step_balanced (n : Z) (st : t W * W) (op : Op W) :
  0 <= n < GoInt.maxInt64 ->
  counters_within n (fst st) -> balanced (fst st) ->
  counters_within (n + 1) (fst (step st op)) /\ balanced (fst (step st op)).
Proof.
  destruct st as [q w]. unfold counters_within, balanced, QueueSize_of.
  cbn [fst]. intros Hn (He & Hp & Hf) Hbal.
  destruct op as [req | | i |]; cbn [step].
  - unfold Enqueue. destruct (closed q); cbn [snd fst]; [lia |].
    unfold QueueSize_of. destruct (_ <? _); cbn [snd fst]; simpl.
    + rewrite (incr_counter n) by assumption. rewrite length_app. simpl. lia.
    + lia.
  - unfold dequeue. destruct (queue q) as [| r rest] eqn:Hq; cbn [fst]; simpl.
    + rewrite Hq. simpl in *. lia.
    + rewrite length_app. simpl in *. lia.
  - destruct (inFlight q !! i) as [req |] eqn:Hi; cbn [fst]; [| lia].
    assert (Hlen : length (delete i (inFlight q)) = (length (inFlight q) - 1)%nat)
      by (apply length_delete; eauto).
    assert (Hpos : (0 < length (inFlight q))%nat)
      by (apply lookup_lt_Some in Hi; lia).
    unfold processRequest. cbn [ContextErr].
    destruct (ContextErr req w) as [e |]; cbn [fst]; simpl.
    + rewrite (incr_counter n) by assumption. rewrite Hlen. lia.
    + destruct (processor q (ReqData req) w) as [[result [e |] |] w1];
        cbn [fst]; simpl; rewrite (incr_counter n) by assumption; rewrite Hlen; lia.
  - unfold Stop. destruct (closed q); cbn [fst]; simpl; lia.
Qed.

Lemma run_balanced (ops : list (Op W)) (n : Z) (st : t W * W) :
  0 <= n -> n + Z.of_nat (length ops) <= GoInt.maxInt64 ->
  counters_within n (fst st) -> balanced (fst st) ->
  balanced (fst (run st ops)).
Proof.
  revert n st. induction ops as [| op ops IH]; intros n st Hn Hlen Hc Hb; [exact Hb |].
  change (run st (op :: ops)) with (run (step st op) ops).
  simpl length in Hlen.
  destruct (step_balanced n st op) as [Hc1 Hb1]; try assumption; [lia |].
  apply (IH (n + 1)); try assumption; lia.
Qed.

(** C7, as the code has it.  After every sequence of queue operations (of
    fewer than 2^63 operations, so that no 64-bit counter has wrapped) the
    enqueued counter equals the processed and failed counters plus the
    number of requests in flight plus the depth.  The dropped counter is not
    part of the balance: an offer turned away on a full queue counts as
    dropped and not as enqueued. *)
Theorem queue_metrics (config : Config W) (q0 : t W) (ops : list (Op W)) (w : W) :
  NewRequestQueue config = Some q0 ->
  Z.of_nat (length ops) <= GoInt.maxInt64 ->
  totalEnqueued (fst (run (q0, w) ops))
  = totalProcessed (fst (run (q0, w) ops))
    + totalFailed (fst (run (q0, w) ops))
    + Z.of_nat (length (inFlight (fst (run (q0, w) ops))))
    + QueueSize_of (fst (run (q0, w) ops))
  /\ (forall (req : Request W) (q : t W),
        fst (Enqueue req q) = Some ErrQueueFull ->
        totalEnqueued (snd (Enqueue req q)) = totalEnqueued q
        /\ totalDropped (snd (Enqueue req q)) = GoInt.incr (totalDropped q)).
Proof.
  intros Hnew Hlen.
  destruct (NewRequestQueue_fresh config q0 Hnew)
    as (Hq & Hfl & _ & _ & He & Hp & Hf & _).
  split.
  - apply (run_balanced ops 0 (q0, w)); try lia.
    + unfold counters_within. cbn [fst]. rewrite He, Hp, Hf. lia.
    + unfold balanced, QueueSize_of. cbn [fst]. rewrite He, Hp, Hf, Hq, Hfl. reflexivity.
  - intros req q. unfold Enqueue. destruct (closed q); [discriminate |].
    destruct (_ <? _); [discriminate |]. intros _. split; reflexivity.
Qed.

End QueueMetrics.

Section QueueClaims.
Import Queue.
Local Open Scope Z_scope.

Lemma queue_bound_witness :
  queue (fst (run (Sample.new_queue 1, tt)
                (map OpEnqueue [Sample.request "a"; Sample.request "b"])))
  = [Sample.request "a"]
  /\ fst (Enqueue (Sample.request "c")
            (fst (run (Sample.new_queue 1, tt)
                    (map OpEnqueue [Sample.request "a"; Sample.request "b"]))))
     = Some ErrQueueFull.
Proof.
  destruct (queue_bound (Sample.queue_config 1) (Sample.new_queue 1) eq_refl)
    as (_ & _ & _ & Hfull & _).
  destruct (Hfull [Sample.request "a"; Sample.request "b"] tt (Sample.request "c"))
    as (Hq & _ & He).
  - vm_compute. discriminate.
  - split; [exact Hq |]. rewrite He. reflexivity.
Defined.

(** The balance the specification states, with the dropped counter on the
    right-hand side, fails as soon as one offer has been dropped: the queue
    of [Sample.one_dropped] has one request enqueued, one dropped, one in the
    buffer, and nothing else. *)
Lemma queue_metrics_counterexample :
  NewRequestQueue (Sample.queue_config 1) = Some (Sample.new_queue 1)
  /\ totalEnqueued Sample.one_dropped = 1
  /\ totalDropped Sample.one_dropped = 1
  /\ totalEnqueued Sample.one_dropped
     <> totalProcessed Sample.one_dropped
        + totalFailed Sample.one_dropped
        + totalDropped Sample.one_dropped
        + Z.of_nat (length (inFlight Sample.one_dropped))
        + QueueSize_of Sample.one_dropped.
Proof. vm_compute. repeat split; discriminate. Qed.

Lemma queue_metrics_witness :
  totalEnqueued Sample.one_dropped
  = totalProcessed Sample.one_dropped
    + totalFailed Sample.one_dropped
    + Z.of_nat (length (inFlight Sample.one_dropped))
    + QueueSize_of Sample.one_dropped.
Proof.
  assert (Hlen : Z.of_nat (length [OpEnqueue (Sample.request "a");
                                   OpEnqueue (Sample.request "b")])
                 <= GoInt.maxInt64).
  { vm_compute. discriminate. }
  exact (proj1 (queue_metrics (Sample.queue_config 1) (Sample.new_queue 1)
                  [OpEnqueue (Sample.request "a"); OpEnqueue (Sample.request "b")]
                  tt eq_refl Hlen)).
Defined.

End QueueClaims.

(** ** The sliding-window limiter *)

Section LimiterClaims.
Import Middleware.
Local Open Scope Z_scope.

Lemma timestamps_set (rl : RateLimiter) (identifier other : string)
  (l : list GoTime.Time) :
  timestamps (set_requests (<[identifier := l]> (requests rl)) rl) other
  = if decide (identifier = other) then l else timestamps rl other.
Proof.
  unfold timestamps, set_requests. simpl. rewrite lookup_insert.
  destruct (decide (identifier = other)); reflexivity.
Qed.

(** C5. [allow] on the window that trails [now].  The timestamps that remain
    after pruning are the stored ones later than [now - window].  [allow]
    returns true exactly when fewer than [limit] of them remain; it then
    appends [now], and otherwise stores the pruned list.  After the call
    every timestamp stored for the identifier is at least [now - window].
    The entries of the other identifiers are untouched. *)
Theorem allow_sliding_window (identifier : string) (now : GoTime.Time)
  (rl : RateLimiter) :
  0 <= window rl <= GoInt.maxInt64 ->
  let kept := validTimestamps (now - window rl) (timestamps rl identifier) in
  (forall ts, In ts kept <-> In ts (timestamps rl identifier) /\ now - window rl < ts)
  /\ (fst (allow identifier now rl) = true <-> Z.of_nat (length kept) < limit rl)
  /\ (fst (allow identifier now rl) = true ->
      timestamps (snd (allow identifier now rl)) identifier = kept ++ [now])
  /\ (fst (allow identifier now rl) = false ->
      timestamps (snd (allow identifier now rl)) identifier = kept)
  /\ (forall ts,
        In ts (timestamps (snd (allow identifier now rl)) identifier) ->
        now - window rl <= ts)
  /\ (forall other,
        other <> identifier ->
        timestamps (snd (allow identifier now rl)) other = timestamps rl other).
Proof.
  intros Hw kept.
  assert (Hkept : forall ts, In ts kept
                             <-> In ts (timestamps rl identifier) /\ now - window rl < ts).
  { intros ts. unfold kept, validTimestamps. rewrite filter_In.
    unfold GoTime.After. rewrite Z.ltb_lt. reflexivity. }
  assert (Hallow : allow identifier now rl
                   = if limit rl <=? Z.of_nat (length kept)
                     then (false, set_requests (<[identifier := kept]> (requests rl)) rl)
                     else (true, set_requests (<[identifier := kept ++ [now]]> (requests rl)) rl)).
  { unfold allow, kept, GoTime.Add. rewrite neg_no_wrap by exact Hw.
    replace (now + - window rl) with (now - window rl) by lia. reflexivity. }
  rewrite Hallow.
  split; [exact Hkept |].
  destruct (Z.leb_spec (limit rl) (Z.of_nat (length kept))) as [Hfull | Hroom]; cbn [fst snd].
  - split; [split; [discriminate | lia] |].
    split; [discriminate |].
    split; [intros _; rewrite timestamps_set; rewrite decide_True; reflexivity |].
    split.
    + intros ts. rewrite timestamps_set, decide_True by reflexivity.
      intros Hin. apply Hkept in Hin. lia.
    + intros other Hne. rewrite timestamps_set, decide_False by congruence.
      reflexivity.
  - split; [split; [intros _; exact Hroom | reflexivity] |].
    split; [intros _; rewrite timestamps_set; rewrite decide_True; reflexivity |].
    split; [discriminate |].
    split.
    + intros ts. rewrite timestamps_set, decide_True by reflexivity.
      rewrite in_app_iff. intros [Hin | [<- | []]]; [apply Hkept in Hin |]; lia.
    + intros other Hne. rewrite timestamps_set, decide_False by congruence.
      reflexivity.
Qed.

(** The limiter of [Sample.limiter] holds 95 and 99 for [u].  At the
    instant 100 both are still inside the window of 10, so the call is
    refused; at 106 only 99 is left, and the call is admitted. *)
Lemma allow_sliding_window_witness :
  fst (allow "u" 100 Sample.limiter) = false
  /\ fst (allow "u" 106 Sample.limiter) = true
  /\ timestamps (snd (allow "u" 106 Sample.limiter)) "u" = [99; 106].
Proof.
  assert (Hw : 0 <= window Sample.limiter <= GoInt.maxInt64).
  { vm_compute. split; discriminate. }
  destruct (allow_sliding_window "u" 100 Sample.limiter Hw) as (_ & Hiff & _).
  destruct (allow_sliding_window "u" 106 Sample.limiter Hw) as (_ & Hiff' & Happ & _).
  assert (Htrue : fst (allow "u" 106 Sample.limiter) = true).
  { apply (proj2 Hiff'). vm_compute. reflexivity. }
  split.
  - destruct (fst (allow "u" 100 Sample.limiter)) eqn:Hb; [| reflexivity].
    pose proof (proj1 Hiff eq_refl) as Hlt. vm_compute in Hlt. discriminate.
  - split; [exact Htrue |]. rewrite (Happ Htrue). vm_compute. reflexivity.
Defined.

End LimiterClaims.

(** ** The handler of [POST /ai/chat] *)

Section HandlerClaims.
Import Handlers.
Local Open Scope Z_scope.

(** C6, as the code has it.  When [Enqueue] fails with the queue-full error
    the handler answers 429; when it fails with the queue-closed error the
    handler answers 500, through the branch that serves every other enqueue
    error. *)
Theorem handler_enqueue_errors {W : Type} (zodiacSign userMessage requestID : string)
  (ctxErr : W -> option error) (now : GoTime.Time) (awaited : Awaited)
  (q : Queue.t W) :
  let queueReq :=
    {| Queue.ID := requestID;
       Queue.ReqData := Queue.DataChat zodiacSign userMessage;
       Queue.ContextErr := ctxErr;
       Queue.EnqueueAt := now |} in
  let answer :=
    fst (GenerateChatResponse (Some (zodiacSign, userMessage)) requestID ctxErr
           now awaited q) in
  (fst (Queue.Enqueue queueReq q) = Some ErrQueueFull ->
   status_of answer = Some Response.StatusTooManyRequests)
  /\ (fst (Queue.Enqueue queueReq q) = Some ErrQueueClosed ->
      status_of answer = Some Response.StatusInternalServerError).
Proof.
  intros queueReq answer. subst answer. unfold GenerateChatResponse.
  fold queueReq. destruct (Queue.Enqueue queueReq q) as [[e |] q1]; cbn [fst].
  - split; intros [= ->]; reflexivity.
  - split; discriminate.
Qed.

(** A stopped queue refuses the request with the queue-closed error, and the
    handler answers 500, not 503. *)
Lemma handler_enqueue_errors_counterexample :
  fst (Queue.Enqueue
         {| Queue.ID := "id"; Queue.ReqData := Queue.DataChat "Leo" "hi";
            Queue.ContextErr := fun _ => None; Queue.EnqueueAt := 0 |}
         Sample.stopped_queue)
  = Some ErrQueueClosed
  /\ status_of (fst (GenerateChatResponse (Some ("Leo", "hi")) "id"
                       (fun _ => None) 0 DeadlineDone Sample.stopped_queue))
     = Some 500
  /\ status_of (fst (GenerateChatResponse (Some ("Leo", "hi")) "id"
                       (fun _ => None) 0 DeadlineDone Sample.stopped_queue))
     <> Some Response.StatusServiceUnavailable.
Proof. vm_compute. repeat split; discriminate. Qed.

Lemma handler_enqueue_errors_witness :
  status_of (fst (GenerateChatResponse (Some ("Leo", "hi")) "id"
                    (fun _ => None) 0 DeadlineDone Sample.full_queue))
  = Some 429
  /\ status_of (fst (GenerateChatResponse (Some ("Leo", "hi")) "id"
                       (fun _ => None) 0 DeadlineDone Sample.stopped_queue))
     = Some 500.
Proof.
  split.
  - apply (proj1 (handler_enqueue_errors "Leo" "hi" "id" (fun _ : unit => None) 0
                    DeadlineDone Sample.full_queue)).
    vm_compute. reflexivity.
  - apply (proj2 (handler_enqueue_errors "Leo" "hi" "id" (fun _ : unit => None) 0
                    DeadlineDone Sample.stopped_queue)).
    vm_compute. reflexivity.
Defined.

End HandlerClaims.

(** ** The AI caller *)

Section ClientLoop.
Import Client.
Local Open Scope Z_scope.
Context {W : Type}.

(** One turn of the retry loop, spelled out on the world and the log. *)
Lemma attempts_turn (c : GeminiClient W) (prompt : string) (k : nat)
  (attempt : Z) (w : W) (tr : list Effect) :
  attempts c prompt (S k) attempt (w, tr) =
  let tr1 := if 0 <? attempt then tr ++ [EffSleep (backoff c attempt)] else tr in
  let tr2 := (tr1 ++ [EffWithTimeout (30 * GoTime.Second)])
               ++ [EffProvider (model c) prompt] in
  match fst (client c (model c) prompt w) with
  | inl text => ((text, None), (snd (client c (model c) prompt w), tr2 ++ [EffCancel]))
  | inr _ =>
      attempts c prompt k (attempt + 1)
        (snd (client c (model c) prompt w), tr2 ++ [EffCancel])
  end.
Proof.
  cbn [attempts]. unfold bind, ret, emit, call. cbn [fst snd].
  destruct (0 <? attempt); cbn [fst snd];
    destruct (client c (model c) prompt w) as [[text | e] w1]; reflexivity.
Qed.

(** The log only grows, and what the loop adds to it never mentions the
    breaker or the limiter. *)
Lemma attempts_log (c : GeminiClient W) (prompt : string) (k : nat) :
  forall (attempt : Z) (w : W) (tr : list Effect),
  exists added,
    snd (snd (attempts c prompt k attempt (w, tr))) = tr ++ added
    /\ forallb (fun e => negb (Run.is_gate e)) added = true.
Proof.
  induction k as [| k IH]; intros attempt w tr.
  - exists []. simpl. rewrite app_nil_r. auto.
  - rewrite attempts_turn. cbv zeta.
    destruct (fst (client c (model c) prompt w)) as [text | e].
    + cbn [snd]. destruct (0 <? attempt).
      * eexists. rewrite <- !app_assoc. split; [reflexivity | reflexivity].
      * eexists. rewrite <- !app_assoc. split; [reflexivity | reflexivity].
    + edestruct (IH (attempt + 1)) as (added & Hlog & Hgate).
      rewrite Hlog. destruct (0 <? attempt).
      * eexists. rewrite <- !app_assoc. split; [reflexivity |].
        simpl. exact Hgate.
      * eexists. rewrite <- !app_assoc. split; [reflexivity |].
        simpl. exact Hgate.
Qed.

(** Against a provider that always fails the loop ends with the
    unavailable error, however many turns it has. *)
Lemma attempts_all_fail (c : GeminiClient W) (prompt : string) (k : nat) :
  (forall m p w, exists e, fst (client c m p w) = inr e) ->
  forall (attempt : Z) (s : W * list Effect),
    fst (attempts c prompt k attempt s) = (EmptyString, Some ErrAIUnavailable).
Proof.
  intros Hdown. induction k as [| k IH]; intros attempt [w tr]; [reflexivity |].
  rewrite attempts_turn. cbv zeta.
  destruct (Hdown (model c) prompt w) as [e He]. rewrite He. apply IH.
Qed.

Lemma GenerateContent_all_fail (c : GeminiClient W) (prompt : string) (s : W * list Effect) :
  (forall m p w, exists e, fst (client c m p w) = inr e) ->
  exists e, snd (fst (GenerateContent c prompt s)) = Some e.
Proof.
  intros Hdown. unfold GenerateContent.
  destruct (String.eqb prompt EmptyString).
  - exists ErrInvalidPrompt. reflexivity.
  - exists ErrAIUnavailable. rewrite attempts_all_fail by exact Hdown. reflexivity.
Qed.



(** [Run.default_client] is the client that [NewGeminiClient] returns when
    the provider library hands out a client. *)
Lemma NewGeminiClient_default (p : Provider W) (apiKey : string) :
  NewGeminiClient (fun _ => inl p) apiKey = inl (Run.default_client p).
Proof. reflexivity. Qed.

(** C1, evaluated on the code.  For every client, prompt and world, the log
    of [GenerateContent] holds no call of the circuit breaker and no wait on
    the token-bucket limiter; and against a provider that is down the three
    attempts reach the provider one after the other, each under nothing but
    its 30-second timeout. *)
Theorem GenerateContent_ungated (c : GeminiClient W) (prompt : string) (w : W) :
  forallb (fun e => negb (Run.is_gate e)) (Run.effects (GenerateContent c prompt) w) = true
  /\ Run.effects (GenerateContent (Run.default_client Run.down) "hi") 0%nat
     = [ EffWithTimeout (30 * GoTime.Second);
         EffProvider "gemini-2.0-flash-exp" "hi"; EffCancel;
         EffSleep GoTime.Second;
         EffWithTimeout (30 * GoTime.Second);
         EffProvider "gemini-2.0-flash-exp" "hi"; EffCancel;
         EffSleep (2 * GoTime.Second);
         EffWithTimeout (30 * GoTime.Second);
         EffProvider "gemini-2.0-flash-exp" "hi"; EffCancel ]
  /\ Run.world (GenerateContent (Run.default_client Run.down) "hi") 0%nat = 3%nat.
Proof.
  split; [| split; reflexivity].
  unfold Run.effects, Run.start, GenerateContent.
  destruct (String.eqb prompt EmptyString); [reflexivity |].
  destruct (attempts_log c prompt (Z.to_nat (maxRetries c)) 0 w [])
    as (added & Hlog & Hgate).
  rewrite Hlog. exact Hgate.
Qed.

End ClientLoop.

Section ClientClaims.
Import Client.
Local Open Scope Z_scope.

Lemma backoff_delays {W : Type} (c : GeminiClient W) :
  baseDelay c = GoTime.Second ->
  backoff c 1 = GoTime.Second /\ backoff c 2 = 2 * GoTime.Second.
Proof. unfold backoff. intros ->. split; reflexivity. Qed.

(** C9, as the code has it.  The empty prompt is refused with the
    invalid-prompt error before anything is done.  A non-empty prompt is tried
    at most three times, each time under a 30-second timeout, with a sleep
    of 1s before the second attempt and of 2s before the third; the text of
    the first attempt that succeeds is returned; when the three attempts fail
    the result is the empty string with the unavailable error.  No third
    delay is slept. *)
Theorem GenerateContent_retries {W : Type} (c : GeminiClient W) (prompt : string)
  (w : W) :
  maxRetries c = 3 ->
  baseDelay c = GoTime.Second ->
  Run.start (GenerateContent c EmptyString) w
  = ((EmptyString, Some ErrInvalidPrompt), (w, []))
  /\ (prompt <> EmptyString ->
      let a1 := client c (model c) prompt w in
      let a2 := client c (model c) prompt (snd a1) in
      let a3 := client c (model c) prompt (snd a2) in
      let turn := [ EffWithTimeout (30 * GoTime.Second);
                   EffProvider (model c) prompt; EffCancel ] in
      match fst a1, fst a2, fst a3 with
      | inl text, _, _ =>
          Run.start (GenerateContent c prompt) w = ((text, None), (snd a1, turn))
      | inr _, inl text, _ =>
          Run.start (GenerateContent c prompt) w
          = ((text, None), (snd a2, turn ++ EffSleep GoTime.Second :: turn))
      | inr _, inr _, inl text =>
          Run.start (GenerateContent c prompt) w
          = ((text, None),
             (snd a3, turn ++ EffSleep GoTime.Second :: turn
                          ++ EffSleep (2 * GoTime.Second) :: turn))
      | inr _, inr _, inr _ =>
          Run.start (GenerateContent c prompt) w
          = ((EmptyString, Some ErrAIUnavailable),
             (snd a3, turn ++ EffSleep GoTime.Second :: turn
                          ++ EffSleep (2 * GoTime.Second) :: turn))
      end).
Proof.
  intros Hretries Hdelay. split; [reflexivity |].
  intros Hprompt a1 a2 a3 turn.
  destruct (backoff_delays c Hdelay) as [Hb1 Hb2].
  unfold Run.start, GenerateContent.
  destruct (String.eqb_spec prompt EmptyString) as [-> | _]; [congruence |].
  rewrite Hretries. change (Z.to_nat 3) with 3%nat.
  rewrite attempts_turn. cbv zeta. fold a1. cbn [Z.ltb Z.compare].
  destruct (fst a1) as [text1 | e1]; [reflexivity |].
  rewrite attempts_turn. cbv zeta. fold a2.
  change (0 <? 0 + 1) with true. change (0 + 1) with 1. cbn iota. rewrite Hb1.
  destruct (fst a2) as [text2 | e2]; [reflexivity |].
  rewrite attempts_turn. cbv zeta. fold a3.
  change (0 <? 1 + 1) with true. change (1 + 1) with 2. cbn iota. rewrite Hb2.
  destruct (fst a3) as [text3 | e3]; reflexivity.
Qed.

(** Against a provider that is down, the caller sleeps 1s and 2s and then
    gives up: a delay of 4s is never slept. *)
Lemma GenerateContent_retries_counterexample :
  Run.sleeps (Run.effects (GenerateContent (Run.default_client Run.down) "hi") 0%nat)
  = [EffSleep GoTime.Second; EffSleep (2 * GoTime.Second)]
  /\ ~ In (EffSleep (4 * GoTime.Second))
         (Run.effects (GenerateContent (Run.default_client Run.down) "hi") 0%nat)
  /\ Run.provider_calls
       (Run.effects (GenerateContent (Run.default_client Run.down) "hi") 0%nat)
     = 3%nat.
Proof.
  split; [reflexivity |]. split; [| reflexivity].
  vm_compute. intros H.
  repeat (destruct H as [H | H]; [discriminate H |]). exact H.
Qed.

Lemma GenerateContent_retries_witness :
  Run.start (GenerateContent (Run.default_client Run.down) "hi") 0%nat
  = ((EmptyString, Some ErrAIUnavailable),
     (3%nat,
      [ EffWithTimeout (30 * GoTime.Second);
        EffProvider "gemini-2.0-flash-exp" "hi"; EffCancel;
        EffSleep GoTime.Second;
        EffWithTimeout (30 * GoTime.Second);
        EffProvider "gemini-2.0-flash-exp" "hi"; EffCancel;
        EffSleep (2 * GoTime.Second);
        EffWithTimeout (30 * GoTime.Second);
        EffProvider "gemini-2.0-flash-exp" "hi"; EffCancel ])).
Proof.
  assert (Hprompt : "hi"%string <> EmptyString) by discriminate.
  exact (proj2 (GenerateContent_retries (Run.default_client Run.down) "hi" 0%nat
                  eq_refl eq_refl) Hprompt).
Defined.

End ClientClaims.

Section FallbackClaims.
Import Client.
Local Open Scope Z_scope.

Lemma map_lookup_In (m : list (string * string)) (k v : string) :
  map_lookup m k = Some v -> In (k, v) m.
Proof.
  induction m as [| [k1 v1] m IH]; simpl; [discriminate |].
  destruct (String.eqb_spec k1 k) as [-> | Hne].
  - intros [= ->]. left. reflexivity.
  - intros H. right. apply IH. exact H.
Qed.

Lemma nonempty_values (m : list (string * string)) (generic k : string) :
  forallb (fun kv => negb (String.eqb (snd kv) EmptyString)) m = true ->
  generic <> EmptyString ->
  match map_lookup m k with Some v => v | None => generic end <> EmptyString.
Proof.
  intros Hall Hgen. destruct (map_lookup m k) as [v |] eqn:Hk; [| exact Hgen].
  apply map_lookup_In in Hk.
  rewrite forallb_forall in Hall. specialize (Hall _ Hk). simpl in Hall.
  destruct (String.eqb_spec v EmptyString); [discriminate | assumption].
Qed.




Lemma getFallbackChatResponse_own (zodiacSign : string) :
  In zodiacSign zodiacTags ->
  map_lookup fallbacks zodiacSign = Some (getFallbackChatResponse zodiacSign).
Proof.
  intros Hin. unfold zodiacTags in Hin. simpl in Hin.
  repeat (destruct Hin as [<- | Hin]; [reflexivity |]). destruct Hin.
Qed.

(** The other copy of the package has a table of its own; its answers are
    never empty either. *)
Lemma ClientEnv_getFallbackChatResponse_nonempty (zodiacSign : string) :
  ClientEnv.getFallbackChatResponse zodiacSign <> EmptyString.
Proof.
  unfold ClientEnv.getFallbackChatResponse.
  apply nonempty_values; [reflexivity | discriminate].
Qed.

Lemma ClientEnv_GenerateChatResponse_falls_back {W : Type} (c : GeminiClient W)
  (zodiacSign userMessage : string) (w : W) :
  (forall m p w', exists e, fst (client c m p w') = inr e) ->
  Run.result (ClientEnv.GenerateChatResponse c zodiacSign userMessage) w
  = (ClientEnv.getFallbackChatResponse zodiacSign, None).
Proof.
  intros Hdown.
  unfold Run.result, Run.start, ClientEnv.GenerateChatResponse, bind, ret.
  destruct (GenerateContent_all_fail c
              (ClientEnv.buildChatPrompt zodiacSign userMessage) (w, []) Hdown)
    as [e He].
  destruct (GenerateContent c _ (w, [])) as [[text err] s].
  simpl in He. subst err. reflexivity.
Qed.






End FallbackClaims.

(** * Further properties of the code *)

(** ** The circuit breaker: thresholds, probes and what keeps it open *)

Section BreakerMore.
Import CircuitBreaker.
Local Open Scope Z_scope.
Context {W : Type} (clock : W -> GoTime.Time).

(** A failed call on a closed breaker. *)
Lemma Execute_closed_failure (fn : W -> option error * W) (cb : t) (w : W) :
  state cb = StateClosed ->
  fails fn ->
  0 <= failures cb < GoInt.maxInt64 ->
  Execute clock fn cb w
  = (fst (fn w),
     (if maxFailures cb <=? failures cb + 1
      then set_state StateOpen
             (set_lastFailureTime (clock (snd (fn w)))
                (set_failures (failures cb + 1) cb))
      else set_lastFailureTime (clock (snd (fn w)))
             (set_failures (failures cb + 1) cb)),
     snd (fn w)).
Proof.
  intros Hs Hfails Hf.
  rewrite Execute_admitted by (unfold beforeRequest; rewrite Hs; reflexivity).
  unfold beforeRequest. rewrite Hs. cbn [snd].
  specialize (Hfails w). destruct (fn w) as [[e |] w1]; simpl in Hfails; [| congruence].
  cbn [fst snd]. unfold afterRequest. simpl. rewrite Hs.
  rewrite incr_no_wrap by (unfold GoInt.minInt64, GoInt.maxInt64 in *; lia).
  reflexivity.
Qed.

(** Failed calls on a closed breaker add up as long as the threshold is not
    reached. *)
Lemma failures_accumulate (calls : list (Call W)) (cb : t) (w : W) :
  state cb = StateClosed ->
  0 <= failures cb ->
  failures cb + Z.of_nat (length calls) < maxFailures cb ->
  maxFailures cb <= GoInt.maxInt64 ->
  Forall (fun c => fails (fn_of c)) calls ->
  state (fst (Execute_all clock calls cb w)) = StateClosed
  /\ failures (fst (Execute_all clock calls cb w))
     = failures cb + Z.of_nat (length calls).
Proof.
  revert cb w. induction calls as [| c rest IH]; intros cb w Hs Hf Hlt Hmax Hall.
  - simpl. split; [exact Hs | lia].
  - inversion Hall as [| ? ? Hc Hrest]; subst. cbn [Execute_all].
    simpl length in Hlt.
    rewrite (Execute_closed_failure (fn_of c) cb (arrive c w) Hs Hc) by lia.
    destruct (Z.leb_spec (maxFailures cb) (failures cb + 1)); [lia |].
    destruct (IH (set_lastFailureTime (clock (snd (fn_of c (arrive c w))))
                    (set_failures (failures cb + 1) cb))
                 (snd (fn_of c (arrive c w))))
      as [H1 H2]; simpl; try assumption; try lia.
    split; [exact H1 |].
    etransitivity; [exact H2 |]. simpl. lia.
Qed.

(** X1. The breaker counts consecutive failures.  On a closed breaker,
    failed calls that do not reach [maxFailures] leave it closed with the
    count raised by their number, and one successful call then puts the
    count back to zero. *)
Theorem failures_below_threshold (calls : list (Call W)) (cb : t) (w : W) :
  state cb = StateClosed ->
  0 <= failures cb ->
  failures cb + Z.of_nat (length calls) < maxFailures cb ->
  maxFailures cb <= GoInt.maxInt64 ->
  Forall (fun c => fails (fn_of c)) calls ->
  state (fst (Execute_all clock calls cb w)) = StateClosed
  /\ failures (fst (Execute_all clock calls cb w))
     = failures cb + Z.of_nat (length calls)
  /\ forall (fn : W -> option error * W) (w2 : W),
       fst (fn w2) = None ->
       state (snd (fst (Execute clock fn (fst (Execute_all clock calls cb w)) w2)))
       = StateClosed
       /\ failures (snd (fst (Execute clock fn (fst (Execute_all clock calls cb w)) w2)))
          = 0.
Proof.
  intros Hs Hf Hlt Hmax Hall.
  destruct (failures_accumulate calls cb w Hs Hf Hlt Hmax Hall) as [H1 H2].
  split; [exact H1 |]. split; [exact H2 |].
  intros fn w2 Hok.
  rewrite Execute_admitted by (unfold beforeRequest; rewrite H1; reflexivity).
  unfold beforeRequest. rewrite H1, Hok. cbn [fst snd]. unfold afterRequest.
  rewrite H1. split; [exact H1 | reflexivity].
Qed.

Lemma Execute_not_half_open (fn : W -> option error * W) (cb : t) (w : W) :
  state cb <> StateHalfOpen ->
  state (snd (fst (Execute clock fn cb w))) <> StateHalfOpen.
Proof.
  intros Hs. unfold Execute, beforeRequest.
  destruct (state cb) eqn:Hst; [| | congruence].
  - destruct (fn w) as [[e |] w1]; cbn [fst snd]; unfold afterRequest; simpl;
      rewrite ?Hst; [| simpl; rewrite Hst; discriminate].
    destruct (_ <=? _); simpl; rewrite ?Hst; discriminate.
  - destruct (_ <? _); cbn [fst snd]; [| rewrite Hst; discriminate].
    destruct (fn w) as [[e |] w1]; cbn [fst snd]; unfold afterRequest; simpl; discriminate.
Qed.

(** X2. Half-open lasts only while a call is running.  When calls are made
    one after the other, whatever their functions do, the breaker is closed
    or open between two calls, never half-open. *)
Theorem half_open_only_during_call (calls : list (Call W)) (cb : t) (w : W) :
  state cb <> StateHalfOpen ->
  state (fst (Execute_all clock calls cb w)) <> StateHalfOpen.
Proof.
  revert cb w. induction calls as [| c rest IH]; intros cb w Hs; [exact Hs |].
  cbn [Execute_all].
  pose proof (Execute_not_half_open (fn_of c) cb (arrive c w) Hs) as Hn.
  destruct (Execute clock (fn_of c) cb (arrive c w)) as [[r cb1] w1].
  apply IH. exact Hn.
Qed.

(** X6. [Reset] starts the count afresh from any state.  After it, failed
    calls fewer than [maxFailures] leave the breaker closed, and
    [maxFailures] of them, or more, open it; the stamp of the last failure
    is kept. *)
Theorem Reset_restarts (calls : list (Call W)) (cb : t) (w : W) :
  1 <= maxFailures cb <= GoInt.maxInt64 ->
  Forall (fun c => fails (fn_of c)) calls ->
  lastFailureTime (Reset cb) = lastFailureTime cb
  /\ (forall now, beforeRequest now (Reset cb) = (None, Reset cb))
  /\ (Z.of_nat (length calls) < maxFailures cb ->
      state (fst (Execute_all clock calls (Reset cb) w)) = StateClosed
      /\ failures (fst (Execute_all clock calls (Reset cb) w))
         = Z.of_nat (length calls))
  /\ (maxFailures cb <= Z.of_nat (length calls) ->
      state (fst (Execute_all clock calls (Reset cb) w)) = StateOpen).
Proof.
  intros Hm Hall. split; [reflexivity |]. split; [reflexivity |]. split.
  - intros Hlt.
    destruct (failures_accumulate calls (Reset cb) w) as [H1 H2];
      simpl; try assumption; try lia; try reflexivity.
    split; [exact H1 | rewrite H2; simpl; lia].
  - intros Hge. apply failures_open; simpl; try assumption; try lia; reflexivity.
Qed.

End BreakerMore.

Section BreakerProbes.
Import CircuitBreaker.
Local Open Scope Z_scope.

(** Arrivals at a half-open breaker: the free probe slots go to the first
    ones, whatever the clock says. *)
Lemma half_open_slots (nows : list GoTime.Time) (cb : t) :
  state cb = StateHalfOpen ->
  0 <= halfOpenReqs cb <= halfOpenMaxReqs cb ->
  halfOpenMaxReqs cb <= GoInt.maxInt64 ->
  fst (Tally.beforeRequest_all nows cb)
  = repeat None (Nat.min (length nows) (Z.to_nat (halfOpenMaxReqs cb - halfOpenReqs cb)))
    ++ repeat (Some ErrTooManyRequests)
         (length nows - Z.to_nat (halfOpenMaxReqs cb - halfOpenReqs cb)).
Proof.
  revert cb. induction nows as [| now rest IH]; intros cb Hs Hr Hmax; [reflexivity |].
  cbn [Tally.beforeRequest_all]. unfold beforeRequest. rewrite Hs.
  destruct (Z.leb_spec (halfOpenMaxReqs cb) (halfOpenReqs cb)) as [Hfull | Hfree].
  - specialize (IH cb Hs Hr Hmax).
    destruct (Tally.beforeRequest_all rest cb) as [answers cb2]. cbn [fst] in *.
    rewrite IH.
    replace (Z.to_nat (halfOpenMaxReqs cb - halfOpenReqs cb)) with 0%nat by lia.
    rewrite !Nat.min_0_r, !Nat.sub_0_r. reflexivity.
  - assert (Hincr : GoInt.incr (halfOpenReqs cb) = halfOpenReqs cb + 1).
    { apply incr_no_wrap. unfold GoInt.minInt64, GoInt.maxInt64 in *. lia. }
    specialize (IH (set_halfOpenReqs (GoInt.incr (halfOpenReqs cb)) cb)).
    destruct (Tally.beforeRequest_all rest _) as [answers cb2]. cbn [fst] in *.
    rewrite IH; simpl; try assumption; try (rewrite Hincr; lia).
    rewrite Hincr.
    replace (Z.to_nat (halfOpenMaxReqs cb - halfOpenReqs cb))
      with (S (Z.to_nat (halfOpenMaxReqs cb - (halfOpenReqs cb + 1)))) by lia.
    reflexivity.
Qed.

(** X3. The call that moves the breaker to half-open is not counted as a
    probe.  When calls arrive together at an open breaker whose timeout has
    passed, the first is admitted, the next [halfOpenMaxReqs] are admitted as
    well, and only the ones after them get the too-many-requests error:
    [halfOpenMaxReqs + 1] calls can run at once. *)
Theorem half_open_admits_limit_plus_one (cb : t) (now0 : GoTime.Time)
  (nows : list GoTime.Time) :
  state cb = StateOpen ->
  resetTimeout cb < GoTime.Since now0 (lastFailureTime cb) ->
  0 <= halfOpenMaxReqs cb <= GoInt.maxInt64 ->
  fst (Tally.beforeRequest_all (now0 :: nows) cb)
  = None
    :: repeat None (Nat.min (length nows) (Z.to_nat (halfOpenMaxReqs cb)))
    ++ repeat (Some ErrTooManyRequests) (length nows - Z.to_nat (halfOpenMaxReqs cb)).
Proof.
  intros Hs Hlate Hm. cbn [Tally.beforeRequest_all]. unfold beforeRequest. rewrite Hs.
  destruct (Z.ltb_spec (resetTimeout cb) (GoTime.Since now0 (lastFailureTime cb))); [| lia].
  pose proof (half_open_slots nows (set_halfOpenReqs 0 (set_state StateHalfOpen cb))) as Hslots.
  destruct (Tally.beforeRequest_all nows _) as [answers cb2]. cbn [fst] in *.
  rewrite Hslots; simpl; try reflexivity; try lia.
  rewrite Z.sub_0_r. reflexivity.
Qed.

Lemma half_open_admits_limit_plus_one_witness :
  fst (Tally.beforeRequest_all
         [100 * GoTime.Second; 100 * GoTime.Second; 100 * GoTime.Second]
         Sample.open_breaker)
  = [None; None; Some ErrTooManyRequests].
Proof.
  assert (Hlate : resetTimeout Sample.open_breaker
                  < GoTime.Since (100 * GoTime.Second) (lastFailureTime Sample.open_breaker)).
  { vm_compute. reflexivity. }
  assert (Hm : 0 <= halfOpenMaxReqs Sample.open_breaker <= GoInt.maxInt64).
  { vm_compute. split; discriminate. }
  exact (half_open_admits_limit_plus_one Sample.open_breaker (100 * GoTime.Second)
           [100 * GoTime.Second; 100 * GoTime.Second] eq_refl Hlate Hm).
Defined.

Lemma step_after_from_open (cb : t) (err : option error) (now : GoTime.Time) :
  state cb = StateOpen -> state (afterRequest err now cb) = StateOpen.
Proof.
  intros Hs. unfold afterRequest. destruct err as [e |]; simpl; rewrite Hs; [| exact Hs].
  destruct (_ <=? _); simpl; [reflexivity | exact Hs].
Qed.

Lemma step_stays_tripped (cb : t) (ev : Event) :
  state cb <> StateClosed ->
  Tally.is_reset ev = false -> Tally.is_success ev = false ->
  state (step cb ev) <> StateClosed.
Proof.
  intros Hs Hr Hok. destruct ev as [now | [e |] now |]; try discriminate; simpl.
  - unfold beforeRequest. destruct (state cb) eqn:Hst; [congruence | |].
    + destruct (_ <? _); simpl; [discriminate | rewrite Hst; discriminate].
    + destruct (_ <=? _); simpl; rewrite Hst; discriminate.
  - unfold afterRequest. simpl. destruct (state cb) eqn:Hst; [congruence | |].
    + destruct (_ <=? _); simpl; [discriminate | rewrite Hst; discriminate].
    + simpl. discriminate.
Qed.

(** X4. What keeps the circuit open.  Results that come in for calls
    admitted earlier, successes included, leave an open breaker open; and
    from an open or half-open breaker no history without a [Reset] and
    without a successful call ever reaches closed. *)
Theorem open_until_probe_succeeds (cb : t) (history : list Event) :
  (state cb = StateOpen ->
   Forall (fun ev => exists err now, ev = EvAfter err now) history ->
   state (run cb history) = StateOpen)
  /\ (state cb <> StateClosed ->
      existsb Tally.is_reset history = false ->
      existsb Tally.is_success history = false ->
      state (run cb history) <> StateClosed).
Proof.
  split.
  - revert cb. induction history as [| ev rest IH]; intros cb Hs Hall; [exact Hs |].
    inversion Hall as [| ? ? (err & now & ->) Hrest]; subst.
    change (run cb (EvAfter err now :: rest)) with (run (afterRequest err now cb) rest).
    apply IH; [apply step_after_from_open; exact Hs | exact Hrest].
  - revert cb. induction history as [| ev rest IH]; intros cb Hs Hr Hok; [exact Hs |].
    simpl in Hr, Hok. apply orb_false_iff in Hr as [Hr1 Hr2].
    apply orb_false_iff in Hok as [Hok1 Hok2].
    change (run cb (ev :: rest)) with (run (step cb ev) rest).
    apply IH; [apply step_stays_tripped; assumption | assumption | assumption].
Qed.

(** The circuit of [Sample.late_failure] is open; a success reported late
    and one more failure leave it open. *)
Lemma open_until_probe_succeeds_witness :
  state (run (run (NewCircuitBreaker Sample.config2) Sample.late_failure)
           [EvAfter None (55 * GoTime.Second);
            EvAfter (Some ErrAIUnavailable) (56 * GoTime.Second)])
  = StateOpen
  /\ state (run Sample.probing_breaker
              [EvBefore (70 * GoTime.Second);
               EvAfter (Some ErrAIUnavailable) (71 * GoTime.Second);
               EvBefore (200 * GoTime.Second)])
     <> StateClosed.
Proof.
  split.
  - apply (proj1 (open_until_probe_succeeds
                    (run (NewCircuitBreaker Sample.config2) Sample.late_failure)
                    [EvAfter None (55 * GoTime.Second);
                     EvAfter (Some ErrAIUnavailable) (56 * GoTime.Second)])).
    + reflexivity.
    + repeat constructor; eexists; eexists; reflexivity.
  - apply (proj2 (open_until_probe_succeeds Sample.probing_breaker
                    [EvBefore (70 * GoTime.Second);
                     EvAfter (Some ErrAIUnavailable) (71 * GoTime.Second);
                     EvBefore (200 * GoTime.Second)])).
    + discriminate.
    + reflexivity.
    + reflexivity.
Defined.

(** X5. The settings of a breaker.  A setting that is not positive is
    replaced by its default (5 failures, 60 seconds, 1 probe), a positive one
    is kept, and no history of the breaker changes any of the three: they are
    at least 1 at all times. *)
Theorem breaker_settings (config : Config) (history : list Event) :
  maxFailures (run (NewCircuitBreaker config) history)
  = (if 0 <? MaxFailures config then MaxFailures config else 5)
  /\ resetTimeout (run (NewCircuitBreaker config) history)
     = (if 0 <? ResetTimeout config then ResetTimeout config else 60 * GoTime.Second)
  /\ halfOpenMaxReqs (run (NewCircuitBreaker config) history)
     = (if 0 <? HalfOpenMaxReqs config then HalfOpenMaxReqs config else 1)
  /\ 1 <= maxFailures (run (NewCircuitBreaker config) history)
  /\ 1 <= resetTimeout (run (NewCircuitBreaker config) history)
  /\ 1 <= halfOpenMaxReqs (run (NewCircuitBreaker config) history).
Proof.
  destruct (run_config history (NewCircuitBreaker config)) as (H1 & H2 & H3).
  rewrite H1, H2, H3. unfold NewCircuitBreaker. cbn [maxFailures resetTimeout halfOpenMaxReqs].
  destruct (Z.leb_spec (MaxFailures config) 0), (Z.ltb_spec 0 (MaxFailures config));
    destruct (Z.leb_spec (ResetTimeout config) 0), (Z.ltb_spec 0 (ResetTimeout config));
    destruct (Z.leb_spec (HalfOpenMaxReqs config) 0), (Z.ltb_spec 0 (HalfOpenMaxReqs config));
    try lia; repeat split; try lia; unfold GoTime.Second; lia.
Qed.

End BreakerProbes.

Section BreakerMoreWitnesses.
Import CircuitBreaker.
Local Open Scope Z_scope.

(** One failure on a fresh breaker of threshold 2 leaves it closed with a
    count of one, and a success clears the count. *)
Lemma failures_below_threshold_witness :
  state (fst (Execute_all Sample.clock [Sample.failing_call]
                (NewCircuitBreaker Sample.config2) 0)) = StateClosed
  /\ failures (fst (Execute_all Sample.clock [Sample.failing_call]
                      (NewCircuitBreaker Sample.config2) 0)) = 1
  /\ failures (snd (fst (Execute Sample.clock Sample.succeeding
                           (fst (Execute_all Sample.clock [Sample.failing_call]
                                   (NewCircuitBreaker Sample.config2) 0))
                           (5 * GoTime.Second)))) = 0.
Proof.
  assert (Hall : Forall (fun c : Call Z => fails (fn_of c)) [Sample.failing_call]).
  { repeat constructor; intros w; discriminate. }
  assert (Hlt : failures (NewCircuitBreaker Sample.config2)
                + Z.of_nat (length [Sample.failing_call])
                < maxFailures (NewCircuitBreaker Sample.config2)).
  { vm_compute. reflexivity. }
  assert (Hf : 0 <= failures (NewCircuitBreaker Sample.config2)).
  { vm_compute. discriminate. }
  assert (Hmax : maxFailures (NewCircuitBreaker Sample.config2) <= GoInt.maxInt64).
  { vm_compute. discriminate. }
  destruct (failures_below_threshold Sample.clock [Sample.failing_call]
              (NewCircuitBreaker Sample.config2) 0 eq_refl Hf Hlt Hmax Hall)
    as (H1 & H2 & H3).
  split; [exact H1 |]. split; [exact H2 |].
  exact (proj2 (H3 Sample.succeeding (5 * GoTime.Second) eq_refl)).
Defined.

Lemma half_open_only_during_call_witness :
  state (fst (Execute_all Sample.clock
                [Sample.failing_call; Sample.failing_call;
                 {| arrive := fun w => w + 100 * GoTime.Second;
                    fn_of := Sample.succeeding |}]
                (NewCircuitBreaker Sample.config2) 0))
  <> StateHalfOpen.
Proof.
  apply (half_open_only_during_call Sample.clock). discriminate.
Defined.

Lemma Reset_restarts_witness :
  state (fst (Execute_all Sample.clock [Sample.failing_call]
                (Reset Sample.open_breaker) 0)) = StateClosed
  /\ state (fst (Execute_all Sample.clock [Sample.failing_call; Sample.failing_call]
                   (Reset Sample.open_breaker) 0)) = StateOpen.
Proof.
  assert (Hm : 1 <= maxFailures Sample.open_breaker <= GoInt.maxInt64).
  { vm_compute. split; discriminate. }
  assert (H1 : Forall (fun c : Call Z => fails (fn_of c)) [Sample.failing_call]).
  { repeat constructor; intros w; discriminate. }
  assert (H2 : Forall (fun c : Call Z => fails (fn_of c))
                 [Sample.failing_call; Sample.failing_call]).
  { repeat constructor; intros w; discriminate. }
  split.
  - destruct (Reset_restarts Sample.clock [Sample.failing_call] Sample.open_breaker 0 Hm H1)
      as (_ & _ & Hlt & _).
    apply Hlt. vm_compute. reflexivity.
  - destruct (Reset_restarts Sample.clock [Sample.failing_call; Sample.failing_call]
                Sample.open_breaker 0 Hm H2) as (_ & _ & _ & Hge).
    apply Hge. vm_compute. discriminate.
Defined.

End BreakerMoreWitnesses.

(** ** The queue: order, shutdown and counters *)

Section QueueMore.
Import Queue.
Local Open Scope Z_scope.
Context {W : Type}.

Lemma run_app (ops1 ops2 : list (Op W)) (st : t W * W) :
  run st (ops1 ++ ops2) = run (run st ops1) ops2.
Proof. unfold run. apply fold_left_app. Qed.

(** Workers taking requests one after the other take them oldest first. *)
Lemma dequeues_take_oldest (count : nat) (q : t W) (w : W) :
  queue (fst (run (q, w) (Tally.dequeues count))) = skipn count (queue q)
  /\ inFlight (fst (run (q, w) (Tally.dequeues count)))
     = inFlight q ++ firstn count (queue q)
  /\ closed (fst (run (q, w) (Tally.dequeues count))) = closed q
  /\ totalEnqueued (fst (run (q, w) (Tally.dequeues count))) = totalEnqueued q
  /\ totalDropped (fst (run (q, w) (Tally.dequeues count))) = totalDropped q.
Proof.
  revert q. induction count as [| n IH]; intros q.
  - simpl. rewrite app_nil_r. repeat split.
  - change (run (q, w) (Tally.dequeues (S n)))
      with (run (dequeue q, w) (Tally.dequeues n)).
    destruct (IH (dequeue q)) as (H1 & H2 & H3 & H4 & H5).
    rewrite H1, H2, H3, H4, H5. unfold dequeue.
    destruct (queue q) as [| r rest] eqn:Hq; simpl.
    + rewrite Hq, skipn_nil, firstn_nil. repeat split.
    + rewrite <- app_assoc. repeat split.
Qed.

(** X7. First in, first out.  When requests that fit in the buffer are
    offered to a new queue and workers then take [count] of them, the workers
    hold the first [count] requests in the order of their arrival and the
    buffer holds the others, in order. *)
Theorem queue_fifo (config : Config W) (q0 : t W) (reqs : list (Request W))
  (count : nat) (w : W) :
  NewRequestQueue config = Some q0 ->
  Z.of_nat (length reqs) <= capacity q0 ->
  inFlight (fst (run (q0, w) (map OpEnqueue reqs ++ Tally.dequeues count)))
  = firstn count reqs
  /\ queue (fst (run (q0, w) (map OpEnqueue reqs ++ Tally.dequeues count)))
     = skipn count reqs.
Proof.
  intros Hnew Hfit.
  destruct (NewRequestQueue_fresh config q0 Hnew) as (Hq & Hfl & Hc & _).
  assert (Hb0 : QueueSize_of q0 <= capacity q0).
  { unfold QueueSize_of. rewrite Hq. simpl. lia. }
  destruct (enqueues_fill reqs q0 w Hc Hb0) as (_ & _ & Hfill).
  rewrite Hq in Hfill. simpl in Hfill.
  rewrite firstn_all2 in Hfill by lia.
  rewrite run_app.
  destruct (run (q0, w) (map OpEnqueue reqs)) as [q1 w1] eqn:Hrun.
  cbn [fst] in Hfill.
  destruct (dequeues_take_oldest count q1 w1) as (H1 & H2 & _).
  rewrite H1, H2, Hfill.
  assert (Hfl1 : inFlight q1 = []).
  { clear - Hrun Hfl. revert q0 w Hrun Hfl.
    induction reqs as [| r rest IH]; intros q0 w Hrun Hfl.
    - simpl in Hrun. injection Hrun as <- <-. exact Hfl.
    - change (run (q0, w) (map OpEnqueue (r :: rest)))
        with (run (snd (Enqueue r q0), w) (map OpEnqueue rest)) in Hrun.
      apply (IH _ _ Hrun). unfold Enqueue.
      destruct (closed q0); [exact Hfl |]. destruct (_ <? _); exact Hfl. }
  rewrite Hfl1. split; reflexivity.
Qed.

Lemma step_after_stop (st : t W * W) (op : Op W) :
  closed (fst st) = true ->
  closed (fst (step st op)) = true
  /\ totalEnqueued (fst (step st op)) = totalEnqueued (fst st)
  /\ totalDropped (fst (step st op)) = totalDropped (fst st)
  /\ exists k, queue (fst (step st op)) = skipn k (queue (fst st)).
Proof.
  destruct st as [q w]. cbn [fst]. intros Hc.
  destruct op as [req | | i |]; cbn [step fst].
  - unfold Enqueue. rewrite Hc. cbn [snd]. repeat split; [exact Hc |]. exists 0%nat. reflexivity.
  - unfold dequeue. destruct (queue q) as [| r rest] eqn:Hq; simpl.
    + rewrite Hq. repeat split; [exact Hc |]. exists 0%nat. reflexivity.
    + repeat split; [exact Hc |]. exists 1%nat. reflexivity.
  - destruct (inFlight q !! i) as [req |]; cbn [fst].
    + pose proof (processRequest_queue req (set_inFlight (delete i (inFlight q)) q) w)
        as (Hq & _ & Hcl & _).
      assert (Hcount : totalEnqueued (fst (fst (processRequest req
                          (set_inFlight (delete i (inFlight q)) q) w))) = totalEnqueued q
                       /\ totalDropped (fst (fst (processRequest req
                          (set_inFlight (delete i (inFlight q)) q) w))) = totalDropped q).
      { unfold processRequest. destruct (ContextErr req w); [split; reflexivity |].
        destruct (processor _ _ _) as [[result [e |] |] w1]; split; reflexivity. }
      destruct (processRequest _ _ _) as [[q1 r] w1]. simpl in *.
      destruct Hcount as [He Hd]. rewrite Hcl, He, Hd, Hq.
      repeat split; [exact Hc |]. exists 0%nat. reflexivity.
    + repeat split; [exact Hc |]. exists 0%nat. reflexivity.
  - unfold Stop. rewrite Hc. repeat split; [exact Hc |]. exists 0%nat. reflexivity.
Qed.

(** X8. [Stop] is final.  After it, whatever operations follow, the queue
    stays closed, every [Enqueue] returns the queue-closed error and changes
    nothing, not even a counter, and the buffer only shrinks from the front:
    the requests that were waiting can still be taken by the workers, oldest
    first. *)
Theorem Stop_is_final (q : t W) (ops : list (Op W)) (w : W) (req : Request W) :
  closed (fst (run (Stop q, w) ops)) = true
  /\ Enqueue req (fst (run (Stop q, w) ops))
     = (Some ErrQueueClosed, fst (run (Stop q, w) ops))
  /\ totalEnqueued (fst (run (Stop q, w) ops)) = totalEnqueued q
  /\ totalDropped (fst (run (Stop q, w) ops)) = totalDropped q
  /\ (exists k, queue (fst (run (Stop q, w) ops)) = skipn k (queue q))
  /\ (forall count,
        inFlight (fst (run (Stop q, w) (Tally.dequeues count)))
        = inFlight q ++ firstn count (queue q)).
Proof.
  assert (Hstop : closed (Stop q) = true /\ totalEnqueued (Stop q) = totalEnqueued q
                  /\ totalDropped (Stop q) = totalDropped q /\ queue (Stop q) = queue q
                  /\ inFlight (Stop q) = inFlight q).
  { unfold Stop. destruct (closed q) eqn:Hc; repeat split; exact Hc. }
  destruct Hstop as (Hc & He & Hd & Hq & Hfl).
  assert (Hinv : forall ops (st : t W * W),
             closed (fst st) = true ->
             closed (fst (run st ops)) = true
             /\ totalEnqueued (fst (run st ops)) = totalEnqueued (fst st)
             /\ totalDropped (fst (run st ops)) = totalDropped (fst st)
             /\ exists k, queue (fst (run st ops)) = skipn k (queue (fst st))).
  { clear. intros ops. induction ops as [| op rest IH]; intros st Hcl.
    - repeat split; [exact Hcl |]. exists 0%nat. reflexivity.
    - change (run st (op :: rest)) with (run (step st op) rest).
      destruct (step_after_stop st op Hcl) as (S1 & S2 & S3 & k1 & S4).
      destruct (IH (step st op) S1) as (R1 & R2 & R3 & k2 & R4).
      rewrite R2, R3, S2, S3, R4, S4. repeat split; [exact R1 |].
      exists (k1 + k2)%nat. rewrite skipn_skipn. f_equal. lia. }
  destruct (Hinv ops (Stop q, w) Hc) as (R1 & R2 & R3 & k & R4).
  cbn [fst] in R2, R3, R4. rewrite He in R2. rewrite Hd in R3. rewrite Hq in R4.
  split; [exact R1 |].
  split; [unfold Enqueue; rewrite R1; reflexivity |].
  split; [exact R2 |]. split; [exact R3 |]. split; [exists k; exact R4 |].
  intros count. destruct (dequeues_take_oldest count (Stop q) w) as (_ & H2 & _).
  rewrite H2, Hfl, Hq. reflexivity.
Qed.

End QueueMore.

Section QueueMoreWitnesses.
Import Queue.
Local Open Scope Z_scope.

Lemma queue_fifo_witness :
  inFlight (fst (run (Sample.new_queue 3, tt)
                   (map OpEnqueue [Sample.request "a"; Sample.request "b"; Sample.request "c"]
                      ++ Tally.dequeues 2)))
  = [Sample.request "a"; Sample.request "b"]
  /\ queue (fst (run (Sample.new_queue 3, tt)
                   (map OpEnqueue [Sample.request "a"; Sample.request "b"; Sample.request "c"]
                      ++ Tally.dequeues 2)))
     = [Sample.request "c"].
Proof.
  assert (Hfit : Z.of_nat (length [Sample.request "a"; Sample.request "b"; Sample.request "c"])
                 <= capacity (Sample.new_queue 3)).
  { vm_compute. discriminate. }
  exact (queue_fifo (Sample.queue_config 3) (Sample.new_queue 3)
           [Sample.request "a"; Sample.request "b"; Sample.request "c"] 2 tt eq_refl Hfit).
Defined.

End QueueMoreWitnesses.

Section QueueCounters.
Import Queue.
Local Open Scope Z_scope.
Context {W : Type}.

Lemma processRequest_offers (req : Request W) (q : t W) (w : W) :
  totalEnqueued (fst (fst (processRequest req q w))) = totalEnqueued q
  /\ totalDropped (fst (fst (processRequest req q w))) = totalDropped q.
Proof.
  unfold processRequest. destruct (ContextErr req w); [split; reflexivity |].
  destruct (processor _ _ _) as [[result [e |] |] w1]; split; reflexivity.
Qed.

(** On a running queue one operation moves the sum of the enqueued and the
    dropped counters by one when it is an offer and not at all otherwise. *)
Lemma step_offers (n : Z) (st : t W * W) (op : Op W) :
  0 <= n < GoInt.maxInt64 ->
  closed (fst st) = false ->
  op <> OpStop ->
  0 <= totalEnqueued (fst st) <= n ->
  0 <= totalDropped (fst st) <= n ->
  closed (fst (step st op)) = false
  /\ 0 <= totalEnqueued (fst (step st op)) <= n + 1
  /\ 0 <= totalDropped (fst (step st op)) <= n + 1
  /\ totalEnqueued (fst (step st op)) + totalDropped (fst (step st op))
     = totalEnqueued (fst st) + totalDropped (fst st) + Tally.offers [op].
Proof.
  destruct st as [q w]. cbn [fst]. intros Hn Hc Hop He Hd.
  destruct op as [req | | i |]; cbn [step fst]; [| | | congruence].
  - unfold Enqueue. rewrite Hc. destruct (_ <? _); cbn [snd]; simpl;
      rewrite (incr_counter n) by assumption;
      unfold Tally.offers; simpl; repeat split; try assumption; lia.
  - unfold dequeue, Tally.offers. destruct (queue q); simpl;
      repeat split; try assumption; lia.
  - unfold Tally.offers. simpl.
    destruct (inFlight q !! i) as [req |]; cbn [fst];
      [| repeat split; try assumption; lia].
    pose proof (processRequest_queue req (set_inFlight (delete i (inFlight q)) q) w)
      as (_ & _ & Hcl & _).
    pose proof (processRequest_offers req (set_inFlight (delete i (inFlight q)) q) w)
      as (Hpe & Hpd).
    destruct (processRequest _ _ _) as [[q1 r] w1]. simpl in *.
    rewrite Hcl, Hpe, Hpd. repeat split; try assumption; lia.
Qed.

Lemma offers_cons (op : Op W) (ops : list (Op W)) :
  Tally.offers (op :: ops) = Tally.offers [op] + Tally.offers ops.
Proof.
  unfold Tally.offers. simpl. destruct op; simpl; lia.
Qed.

Lemma run_offers (ops : list (Op W)) (n : Z) (st : t W * W) :
  0 <= n -> n + Z.of_nat (length ops) <= GoInt.maxInt64 ->
  closed (fst st) = false ->
  Tally.has_stop ops = false ->
  0 <= totalEnqueued (fst st) <= n ->
  0 <= totalDropped (fst st) <= n ->
  totalEnqueued (fst (run st ops)) + totalDropped (fst (run st ops))
  = totalEnqueued (fst st) + totalDropped (fst st) + Tally.offers ops.
Proof.
  revert n st. induction ops as [| op rest IH]; intros n st Hn Hlen Hc Hstop He Hd.
  - unfold Tally.offers. simpl. lia.
  - change (run st (op :: rest)) with (run (step st op) rest).
    simpl length in Hlen. unfold Tally.has_stop in Hstop. simpl in Hstop.
    apply orb_false_iff in Hstop as [Hop Hrest].
    assert (Hne : op <> OpStop) by (intros ->; discriminate).
    destruct (step_offers n st op) as (S1 & S2 & S3 & S4); try assumption; [lia |].
    rewrite (IH (n + 1)); try assumption; try lia.
    rewrite S4, (offers_cons op rest). lia.
Qed.

(** X9. Every offer is counted once.  On a queue that is not stopped, after
    any run of operations (fewer than 2^63 of them), the enqueued and the
    dropped counters add up to the number of [Enqueue] calls made: each call
    was counted as enqueued or as dropped, never both and never neither. *)
Theorem offers_counted_once (config : Config W) (q0 : t W) (ops : list (Op W))
  (w : W) :
  NewRequestQueue config = Some q0 ->
  Tally.has_stop ops = false ->
  Z.of_nat (length ops) <= GoInt.maxInt64 ->
  totalEnqueued (fst (run (q0, w) ops)) + totalDropped (fst (run (q0, w) ops))
  = Tally.offers ops.
Proof.
  intros Hnew Hstop Hlen.
  destruct (NewRequestQueue_fresh config q0 Hnew)
    as (_ & _ & Hc & _ & He & _ & _ & Hd).
  rewrite (run_offers ops 0 (q0, w)); cbn [fst]; try assumption; lia.
Qed.

(** X10. The counters agree with the results.  [processRequest] counts the
    request once: as processed exactly when the result it writes carries no
    error, as failed otherwise.  A request whose context is already
    cancelled gets the context's error and is not handed to the processor:
    the world is left as it was.  Neither the buffer nor the offers'
    counters are touched. *)
Theorem processRequest_counts_result (req : Request W) (q : t W) (w : W) :
  0 <= totalProcessed q < GoInt.maxInt64 ->
  0 <= totalFailed q < GoInt.maxInt64 ->
  (ResultError (snd (fst (processRequest req q w))) = None ->
   totalProcessed (fst (fst (processRequest req q w))) = totalProcessed q + 1
   /\ totalFailed (fst (fst (processRequest req q w))) = totalFailed q)
  /\ (ResultError (snd (fst (processRequest req q w))) <> None ->
      totalProcessed (fst (fst (processRequest req q w))) = totalProcessed q
      /\ totalFailed (fst (fst (processRequest req q w))) = totalFailed q + 1)
  /\ (forall e, ContextErr req w = Some e ->
        snd (fst (processRequest req q w))
        = {| ResultData := DataNil; ResultError := Some e |}
        /\ snd (processRequest req q w) = w)
  /\ queue (fst (fst (processRequest req q w))) = queue q
  /\ totalEnqueued (fst (fst (processRequest req q w))) = totalEnqueued q
  /\ totalDropped (fst (fst (processRequest req q w))) = totalDropped q.
Proof.
  intros Hp Hf.
  assert (Hip : GoInt.incr (totalProcessed q) = totalProcessed q + 1).
  { apply incr_no_wrap. unfold GoInt.minInt64, GoInt.maxInt64 in *. lia. }
  assert (Hif : GoInt.incr (totalFailed q) = totalFailed q + 1).
  { apply incr_no_wrap. unfold GoInt.minInt64, GoInt.maxInt64 in *. lia. }
  destruct (processRequest_offers req q w) as [Hoe Hod].
  destruct (processRequest_queue req q w) as (Hq & _).
  split; [| split; [| split; [| split; [exact Hq | split; [exact Hoe | exact Hod]]]]];
    unfold processRequest.
  - destruct (ContextErr req w); [discriminate |].
    destruct (processor _ _ _) as [[result [e |] |] w1]; simpl; try discriminate.
    intros _. split; [exact Hip | reflexivity].
  - destruct (ContextErr req w); [intros _; simpl; split; [reflexivity | exact Hif] |].
    destruct (processor _ _ _) as [[result [e |] |] w1]; simpl; try congruence;
      intros _; split; [reflexivity | exact Hif | reflexivity | exact Hif].
  - intros e ->. split; reflexivity.
Qed.

End QueueCounters.

Section QueueCountersWitnesses.
Import Queue.
Local Open Scope Z_scope.

Lemma offers_counted_once_witness :
  totalEnqueued Sample.one_dropped + totalDropped Sample.one_dropped = 2.
Proof.
  assert (Hlen : Z.of_nat (length [OpEnqueue (Sample.request "a");
                                   OpEnqueue (Sample.request "b")])
                 <= GoInt.maxInt64).
  { vm_compute. discriminate. }
  exact (offers_counted_once (Sample.queue_config 1) (Sample.new_queue 1)
           [OpEnqueue (Sample.request "a"); OpEnqueue (Sample.request "b")] tt
           eq_refl eq_refl Hlen).
Defined.

Lemma processRequest_counts_result_witness :
  totalProcessed (fst (fst (processRequest (Sample.request "a") (Sample.new_queue 1) tt)))
  = 1
  /\ totalFailed (fst (fst (processRequest (Sample.request "a") (Sample.new_queue 1) tt)))
     = 0.
Proof.
  assert (Hp : 0 <= totalProcessed (Sample.new_queue 1) < GoInt.maxInt64).
  { vm_compute. split; [discriminate | reflexivity]. }
  assert (Hf : 0 <= totalFailed (Sample.new_queue 1) < GoInt.maxInt64).
  { vm_compute. split; [discriminate | reflexivity]. }
  destruct (processRequest_counts_result (Sample.request "a") (Sample.new_queue 1) tt Hp Hf)
    as (Hok & _).
  exact (Hok eq_refl).
Defined.

End QueueCountersWitnesses.

(** ** The sliding-window limiter over time *)

Section LimiterMore.
Import Middleware Ingress.
Local Open Scope Z_scope.

Lemma allow_unfold (identifier : string) (now : GoTime.Time) (rl : RateLimiter) :
  0 <= window rl <= GoInt.maxInt64 ->
  allow identifier now rl
  = if limit rl <=? Z.of_nat (length (validTimestamps (now - window rl)
                                       (timestamps rl identifier)))
    then (false,
          set_requests (<[identifier := validTimestamps (now - window rl)
                                          (timestamps rl identifier)]> (requests rl)) rl)
    else (true,
          set_requests (<[identifier := validTimestamps (now - window rl)
                                          (timestamps rl identifier) ++ [now]]>
                          (requests rl)) rl).
Proof.
  intros Hw. unfold allow, GoTime.Add. rewrite neg_no_wrap by exact Hw.
  replace (now + - window rl) with (now - window rl) by lia. reflexivity.
Qed.

Lemma allow_settings (identifier : string) (now : GoTime.Time) (rl : RateLimiter) :
  limit (snd (allow identifier now rl)) = limit rl
  /\ window (snd (allow identifier now rl)) = window rl.
Proof. unfold allow. destruct (_ <=? _); split; reflexivity. Qed.

Lemma allow_other (identifier other : string) (now : GoTime.Time) (rl : RateLimiter) :
  identifier <> other ->
  timestamps (snd (allow identifier now rl)) other = timestamps rl other.
Proof.
  intros Hne. unfold allow. destruct (_ <=? _); cbn [snd];
    rewrite timestamps_set, decide_False by exact Hne; reflexivity.
Qed.

Lemma filter_length_le (f g : Z -> bool) (l : list Z) :
  (forall x, f x = true -> g x = true) ->
  (length (List.filter f l) <= length (List.filter g l))%nat.
Proof.
  intros Himp. induction l as [| x l IH]; simpl; [lia |].
  destruct (f x) eqn:Hf.
  - rewrite (Himp x Hf). simpl. lia.
  - destruct (g x); simpl; lia.
Qed.

Lemma filter_narrow (c d : Z) (l : list Z) :
  c <= d ->
  List.filter (fun t => d <? t) (List.filter (fun t => c <? t) l)
  = List.filter (fun t => d <? t) l.
Proof.
  intros Hcd. induction l as [| x l IH]; simpl; [reflexivity |].
  destruct (Z.ltb_spec c x), (Z.ltb_spec d x); simpl; try lia;
    try (destruct (Z.ltb_spec d x); try lia); rewrite IH; reflexivity.
Qed.

(** The induction behind the fairness of the limiter.  [adm] lists the
    instants admitted so far for the identifier, [tl] is the instant of the
    last call, and what the limiter stores is [adm] cut at some instant that
    is already outside the window. *)
Lemma fairness_gen (identifier : string) (N : Z) (W : GoTime.Duration) :
  0 <= N -> 0 < W <= GoInt.maxInt64 ->
  forall (calls : list (string * GoTime.Time)) (rl : RateLimiter)
         (adm : list GoTime.Time) (tl c : GoTime.Time),
    limit rl = N -> window rl = W ->
    c <= tl - W ->
    timestamps rl identifier = List.filter (fun t => c <? t) adm ->
    Forall (fun t => t <= tl) adm ->
    (forall s, Z.of_nat (length (List.filter (in_window s W) adm)) <= N) ->
    monotone tl calls ->
    forall s,
      Z.of_nat (length (List.filter (in_window s W)
                          (adm ++ admitted identifier calls (fst (allow_all calls rl)))))
      <= N.
Proof.
  intros HN HW calls.
  induction calls as [| [i now] rest IH];
    intros rl adm tl c Hlim Hwin Hc Hts Hle Hfair Hmono s.
  - simpl. rewrite app_nil_r. apply Hfair.
  - destruct Hmono as [Htl Hmono].
    cbn [allow_all].
    destruct (allow_settings i now rl) as [Hl1 Hw1].
    assert (Hle' : Forall (fun t => t <= now) adm).
    { eapply Forall_impl; [exact Hle |]. simpl. intros t Ht. lia. }
    destruct (String.eqb_spec i identifier) as [-> | Hne].
    + (* a call of the identifier *)
      assert (Hallow : allow identifier now rl
                = if N <=? Z.of_nat (length (List.filter (fun t => now - W <? t) adm))
                  then (false,
                        set_requests
                          (<[identifier := List.filter (fun t => now - W <? t) adm]>
                             (requests rl)) rl)
                  else (true,
                        set_requests
                          (<[identifier := List.filter (fun t => now - W <? t) adm ++ [now]]>
                             (requests rl)) rl)).
      { rewrite allow_unfold by (rewrite Hwin; lia).
        rewrite Hwin, Hlim, Hts. unfold validTimestamps, GoTime.After, GoTime.Time.
        rewrite (filter_narrow c (now - W) adm) by lia. reflexivity. }
      rewrite Hallow. clear Hallow Hl1 Hw1.
      destruct (Z.leb_spec N (Z.of_nat (length (List.filter (fun t => now - W <? t) adm))))
        as [Hfull | Hroom].
      * specialize (IH (set_requests
                          (<[identifier := List.filter (fun t => now - W <? t) adm]>
                             (requests rl)) rl)
                       adm now (now - W)).
        destruct (allow_all rest _) as [oks rl2]. cbn [fst admitted andb] in *.
        apply IH; simpl; try assumption; try lia.
        rewrite timestamps_set, decide_True by reflexivity. reflexivity.
      * specialize (IH (set_requests
                          (<[identifier := List.filter (fun t => now - W <? t) adm ++ [now]]>
                             (requests rl)) rl)
                       (adm ++ [now]) now (now - W)).
        destruct (allow_all rest _) as [oks rl2]. cbn [fst admitted andb] in *.
        rewrite String.eqb_refl.
        change (adm ++ now :: admitted identifier rest oks)
          with (adm ++ [now] ++ admitted identifier rest oks).
        rewrite app_assoc.
        apply IH; simpl; try assumption; try lia.
        -- rewrite timestamps_set, decide_True by reflexivity.
           rewrite List.filter_app. simpl.
           destruct (Z.ltb_spec (now - W) now); [reflexivity | lia].
        -- apply Forall_app. split; [exact Hle' |]. constructor; [lia | constructor].
        -- intros s'. destruct (Z.ltb_spec s' now) as [Hbefore | Hafter].
           ++ rewrite List.filter_app. simpl. unfold in_window at 2.
              destruct (Z.leb_spec now s'); [lia |].
              rewrite andb_false_r, app_nil_r. apply Hfair.
           ++ pose proof (filter_length_le (in_window s' W) (fun t => now - W <? t)
                            (adm ++ [now])) as Hcount.
              assert (Himp : forall x, in_window s' W x = true -> (now - W <? x) = true).
              { intros x. unfold in_window. rewrite andb_true_iff, !Z.ltb_lt. lia. }
              specialize (Hcount Himp).
              rewrite (List.filter_app (fun t => now - W <? t)) in Hcount. simpl in Hcount.
              destruct (Z.ltb_spec (now - W) now); [| lia].
              rewrite (length_app (List.filter (fun t => now - W <? t) adm)) in Hcount.
              simpl in Hcount. unfold GoTime.Time in *. lia.
    + (* a call of somebody else *)
      pose proof (allow_other i identifier now rl Hne) as Hsame.
      destruct (allow i now rl) as [ok rl1]. cbn [snd] in *.
      specialize (IH rl1 adm now c).
      destruct (allow_all rest rl1) as [oks rl2]. cbn [fst admitted] in *.
      assert (Heq : String.eqb i identifier = false) by (apply String.eqb_neq; exact Hne).
      rewrite Heq, andb_false_r.
      apply IH; try assumption; try lia; try congruence.
Qed.

(** X11. Ingress fairness.  Start a limiter of [limit] requests per
    [window] and call [allow] any number of times, for any identifiers, at
    instants that do not go backwards.  Then in every window of that length,
    wherever it ends, the number of calls admitted for one identifier is at
    most [limit]. *)
Theorem ingress_fairness (limit_ : Z) (window_ : GoTime.Duration)
  (t0 : GoTime.Time) (calls : list (string * GoTime.Time)) (identifier : string)
  (s : GoTime.Time) :
  0 <= limit_ ->
  0 < window_ <= GoInt.maxInt64 ->
  monotone t0 calls ->
  Z.of_nat (length (List.filter (in_window s window_)
                      (admitted identifier calls
                         (fst (allow_all calls (NewRateLimiter limit_ window_))))))
  <= limit_.
Proof.
  intros HN HW Hmono.
  apply (fairness_gen identifier limit_ window_ HN HW calls
           (NewRateLimiter limit_ window_) [] t0 (t0 - window_));
    try reflexivity; try assumption; try lia.
  - constructor.
  - intros s'. simpl. exact HN.
Qed.

End LimiterMore.

Section LimiterSweep.
Import Middleware Ingress.
Local Open Scope Z_scope.

(** Five calls of one identifier within four nanoseconds, under a limit of
    two per ten: two are admitted. *)
Lemma ingress_fairness_witness :
  Z.of_nat (length (List.filter (in_window 104 10)
                      (admitted "u"
                         [("u", 100); ("v", 101); ("u", 102); ("u", 103); ("u", 104)]
                         (fst (allow_all
                                 [("u", 100); ("v", 101); ("u", 102); ("u", 103); ("u", 104)]
                                 (NewRateLimiter 2 10))))))
  <= 2.
Proof.
  assert (HN : 0 <= 2) by discriminate.
  assert (HW : 0 < 10 <= GoInt.maxInt64) by (vm_compute; split; [reflexivity | discriminate]).
  assert (Hmono : monotone 100 [("u", 100); ("v", 101); ("u", 102); ("u", 103); ("u", 104)]).
  { simpl. repeat split; discriminate. }
  exact (ingress_fairness 2 10 100
           [("u", 100); ("v", 101); ("u", 102); ("u", 103); ("u", 104)] "u" 104
           HN HW Hmono).
Defined.

(** With a user id the middleware is [allow] on the user id, wherever the
    request comes from. *)
Lemma middleware_as_allow (user : string) (reqs : list (string * Local * GoTime.Time))
  (rl : RateLimiter) :
  user <> EmptyString ->
  Forall (fun r => snd (fst r) = LocalString user) reqs ->
  passed reqs (fst (RateLimitMiddleware_all reqs rl))
  = admitted user (map (fun r => (user, snd r)) reqs)
      (fst (allow_all (map (fun r => (user, snd r)) reqs) rl))
  /\ snd (RateLimitMiddleware_all reqs rl)
     = snd (allow_all (map (fun r => (user, snd r)) reqs) rl).
Proof.
  intros Huser. revert rl.
  induction reqs as [| [[ip l] now] rest IH]; intros rl Hall; [split; reflexivity |].
  inversion Hall as [| ? ? Hl Hrest]; subst. simpl in Hl. subst l.
  cbn [RateLimitMiddleware_all map allow_all snd fst].
  unfold RateLimitMiddleware, identifier_of. cbn [GetUserID].
  destruct (String.eqb_spec user EmptyString) as [-> | _]; [congruence |].
  destruct (allow user now rl) as [[|] rl1];
    specialize (IH rl1 Hrest); destruct IH as [IH1 IH2];
    destruct (RateLimitMiddleware_all rest rl1) as [vs rl2];
    destruct (allow_all _ rl1) as [oks rl3];
    cbn [fst snd passed admitted andb] in *; rewrite ?String.eqb_refl;
    split; congruence.
Qed.

(** X13. A user id carries its quota from address to address.  For requests
    that all bear the same non-empty user id, from whatever addresses, at
    instants that do not go backwards, the middleware passes on at most
    [limit] of them in every window; every other one is answered 429. *)
Theorem authenticated_quota_ignores_address (limit_ : Z) (window_ : GoTime.Duration)
  (t0 : GoTime.Time) (reqs : list (string * Local * GoTime.Time)) (user : string)
  (s : GoTime.Time) :
  0 <= limit_ ->
  0 < window_ <= GoInt.maxInt64 ->
  user <> EmptyString ->
  Forall (fun r => snd (fst r) = LocalString user) reqs ->
  monotone t0 (map (fun r => (user, snd r)) reqs) ->
  Z.of_nat (length (List.filter (in_window s window_)
                      (passed reqs
                         (fst (RateLimitMiddleware_all reqs
                                 (NewRateLimiter limit_ window_))))))
  <= limit_
  /\ Forall (fun v => v = Next \/ v = Respond 429 "TOO_MANY_REQUESTS")
       (fst (RateLimitMiddleware_all reqs (NewRateLimiter limit_ window_))).
Proof.
  intros HN HW Huser Hall Hmono. split.
  - rewrite (proj1 (middleware_as_allow user reqs (NewRateLimiter limit_ window_) Huser Hall)).
    apply (fairness_gen user limit_ window_ HN HW
             (map (fun r => (user, snd r)) reqs)
             (NewRateLimiter limit_ window_) [] t0 (t0 - window_));
      try reflexivity; try assumption; try lia.
    + constructor.
    + intros s'. simpl. exact HN.
  - clear. generalize (NewRateLimiter limit_ window_).
    induction reqs as [| [[ip l] now] rest IH]; intros rl; [constructor |].
    cbn [RateLimitMiddleware_all]. unfold RateLimitMiddleware.
    destruct (allow _ now rl) as [[|] rl1]; specialize (IH rl1);
      destruct (RateLimitMiddleware_all rest rl1) as [vs rl2]; cbn [fst] in *;
      constructor; auto.
Qed.

Lemma authenticated_quota_ignores_address_witness :
  Z.of_nat (length (List.filter (in_window 103 10)
                      (passed
                         [("10.0.0.1", LocalString "u", 100);
                          ("10.0.0.2", LocalString "u", 101);
                          ("10.0.0.3", LocalString "u", 102)]
                         (fst (RateLimitMiddleware_all
                                 [("10.0.0.1", LocalString "u", 100);
                                  ("10.0.0.2", LocalString "u", 101);
                                  ("10.0.0.3", LocalString "u", 102)]
                                 (NewRateLimiter 2 10))))))
  <= 2.
Proof.
  assert (HN : 0 <= 2) by discriminate.
  assert (HW : 0 < 10 <= GoInt.maxInt64) by (vm_compute; split; [reflexivity | discriminate]).
  assert (Huser : "u"%string <> EmptyString) by discriminate.
  assert (Hall : Forall (fun r : string * Local * GoTime.Time => snd (fst r) = LocalString "u")
                   [("10.0.0.1", LocalString "u", 100);
                    ("10.0.0.2", LocalString "u", 101);
                    ("10.0.0.3", LocalString "u", 102)]).
  { repeat constructor. }
  assert (Hmono : monotone 100
                    (map (fun r : string * Local * GoTime.Time => ("u"%string, snd r))
                       [("10.0.0.1", LocalString "u", 100);
                        ("10.0.0.2", LocalString "u", 101);
                        ("10.0.0.3", LocalString "u", 102)])).
  { simpl. repeat split; discriminate. }
  exact (proj1 (authenticated_quota_ignores_address 2 10 100 _ "u" 103
                  HN HW Huser Hall Hmono)).
Defined.

Lemma last_bounds_filter (ts : list GoTime.Time) (newest start : GoTime.Time) :
  last ts = Some newest ->
  (forall t, In t ts -> t <= newest) ->
  newest <= start ->
  validTimestamps start ts = [].
Proof.
  intros _ Hsorted Hold. unfold validTimestamps, GoTime.After.
  induction ts as [| t rest IH]; [reflexivity |]. simpl.
  destruct (Z.ltb_spec start t) as [Hin |].
  - specialize (Hsorted t (or_introl eq_refl)). lia.
  - apply IH. intros t' Ht'. apply Hsorted. right. exact Ht'.
Qed.

(** X12. The sweep cannot be told from outside.  When the timestamps of an
    identifier are in the order of the clock, the newest last, a call of
    [allow] after a pass of [cleanup] gives the same answer and stores the
    same timestamps as the call without the pass: [cleanup] only forgets
    entries that the next call would have pruned to nothing. *)
Theorem cleanup_transparent (identifier : string) (swept now : GoTime.Time)
  (rl : RateLimiter) :
  0 <= window rl <= GoInt.maxInt64 ->
  swept <= now ->
  (forall ts newest t,
     requests rl !! identifier = Some ts -> last ts = Some newest -> In t ts ->
     t <= newest) ->
  fst (allow identifier now (cleanup swept rl)) = fst (allow identifier now rl)
  /\ timestamps (snd (allow identifier now (cleanup swept rl))) identifier
     = timestamps (snd (allow identifier now rl)) identifier.
Proof.
  intros Hw Hlater Hsorted.
  assert (Hkept : validTimestamps (now - window rl) (timestamps (cleanup swept rl) identifier)
                  = validTimestamps (now - window rl) (timestamps rl identifier)).
  { unfold timestamps, cleanup. cbn [requests set_requests].
    unfold GoTime.Add. rewrite neg_no_wrap by exact Hw.
    destruct (requests rl !! identifier) as [ts |] eqn:Hlook.
    - destruct (stale (swept + - window rl) ts) eqn:Hstale.
      + rewrite (proj2 (map_lookup_filter_None _ _ identifier)).
        * simpl. unfold stale in Hstale.
          match type of Hstale with
          | match ?x with _ => _ end = _ => destruct x as [newest |] eqn:Hlast
          end.
          -- symmetry. apply (last_bounds_filter ts newest); [exact Hlast | |].
             ++ intros t Ht. exact (Hsorted ts newest t eq_refl Hlast Ht).
             ++ apply Z.ltb_lt in Hstale. lia.
          -- apply last_None in Hlast. subst ts. reflexivity.
        * right. intros x Hx. simpl.
          pose proof (eq_trans (eq_sym Hlook) Hx) as Heq. injection Heq as <-.
          rewrite Hstale. discriminate.
      + rewrite (proj2 (map_lookup_filter_Some _ _ identifier ts)); [reflexivity |].
        split; [exact Hlook | exact Hstale].
    - rewrite (proj2 (map_lookup_filter_None _ _ identifier)); [reflexivity |].
      left. exact Hlook. }
  rewrite !allow_unfold by exact Hw.
  change (window (cleanup swept rl)) with (window rl).
  change (limit (cleanup swept rl)) with (limit rl).
  rewrite Hkept.
  destruct (_ <=? _); cbn [fst snd]; split; try reflexivity;
    rewrite !timestamps_set, !decide_True by reflexivity; reflexivity.
Qed.

(** [Sample.limiter] holds 95 and 99 for [u].  A pass at 200 forgets the
    entry, and a call at 201 is admitted either way. *)
Lemma cleanup_transparent_witness :
  requests (cleanup 200 Sample.limiter) !! "u" = None
  /\ fst (allow "u" 201 (cleanup 200 Sample.limiter)) = true
  /\ fst (allow "u" 201 Sample.limiter) = true.
Proof.
  assert (Hw : 0 <= window Sample.limiter <= GoInt.maxInt64).
  { vm_compute. split; discriminate. }
  assert (Hlater : 200 <= 201) by discriminate.
  assert (Hsorted : forall ts newest t,
             requests Sample.limiter !! "u" = Some ts -> last ts = Some newest ->
             In t ts -> t <= newest).
  { intros ts newest t Hts. vm_compute in Hts. injection Hts as <-.
    intros [= <-]. simpl. intros [<- | [<- | []]]; discriminate. }
  destruct (cleanup_transparent "u" 200 201 Sample.limiter Hw Hlater Hsorted) as [Hsame _].
  split; [vm_compute; reflexivity |].
  split; [rewrite Hsame |]; vm_compute; reflexivity.
Defined.

End LimiterSweep.

(** ** The AI caller: what every call does *)

Section ClientMore.
Import Client.
Local Open Scope Z_scope.
Context {W : Type}.

(** What the loop adds to the log: as many timeouts and as many cancels as
    calls of the provider, at most one call for each turn left, and one
    sleep before every call except the very first. *)
Lemma attempts_counts (c : GeminiClient W) (prompt : string) (k : nat) :
  forall (attempt : Z) (w : W) (tr : list Effect),
  0 <= attempt ->
  exists added,
    snd (snd (attempts c prompt k attempt (w, tr))) = tr ++ added
    /\ Tally.count Tally.is_timeout added = Run.provider_calls added
    /\ Tally.count Tally.is_cancel added = Run.provider_calls added
    /\ (Run.provider_calls added <= k)%nat
    /\ length (Run.sleeps added)
       = (if 0 <? attempt then Run.provider_calls added
          else (Run.provider_calls added - 1)%nat).
Proof.
  induction k as [| k IH]; intros attempt w tr Ha.
  - exists []. simpl. rewrite app_nil_r.
    unfold Tally.count, Run.provider_calls, Run.sleeps. simpl.
    destruct (0 <? attempt); repeat split; lia.
  - rewrite attempts_turn. cbv zeta.
    destruct (fst (client c (model c) prompt w)) as [text | e].
    + cbn [snd]. destruct (0 <? attempt).
      * eexists. rewrite <- !app_assoc. split; [reflexivity |].
        unfold Tally.count, Run.provider_calls, Run.sleeps. simpl. repeat split; lia.
      * eexists. rewrite <- !app_assoc. split; [reflexivity |].
        unfold Tally.count, Run.provider_calls, Run.sleeps. simpl. repeat split; lia.
    + edestruct (IH (attempt + 1)) as (added & Hlog & Ht & Hc & Hp & Hs); [lia |].
      rewrite Hlog.
      assert (Hnext : (0 <? attempt + 1) = true) by (apply Z.ltb_lt; lia).
      rewrite Hnext in Hs.
      unfold Tally.count, Run.provider_calls, Run.sleeps in *.
      destruct (0 <? attempt).
      * eexists. rewrite <- !app_assoc. split; [reflexivity |].
        simpl. rewrite Ht, Hc, Hs. repeat split; lia.
      * eexists. rewrite <- !app_assoc. split; [reflexivity |].
        simpl. rewrite Ht, Hc, Hs. repeat split; lia.
Qed.

(** Every turn calls the provider once. *)
Lemma turns_calls (c : GeminiClient W) (prompt : string) (a n : nat) :
  Run.provider_calls (concat (map (Tally.turn c prompt) (seq a n))) = n.
Proof.
  revert a. induction n as [| n IH]; intros a; [reflexivity |].
  cbn [seq map concat]. unfold Run.provider_calls in *.
  rewrite List.filter_app, length_app, IH.
  unfold Tally.turn. destruct (0 <? Z.of_nat a); reflexivity.
Qed.

(** The log of the loop, turn by turn.  Started with [attempt = a] and [k]
    turns left, the loop adds the turns [a], [a+1], ... to the log, [n] of
    them in this order and nothing else: all [k] of them when it gives up, at
    least one when it returns a text. *)
Lemma attempts_turns (c : GeminiClient W) (prompt : string) (k : nat) :
  forall (a : nat) (w : W) (tr : list Effect),
  exists n,
    (n <= k)%nat
    /\ snd (snd (attempts c prompt k (Z.of_nat a) (w, tr)))
       = tr ++ concat (map (Tally.turn c prompt) (seq a n))
    /\ (snd (fst (attempts c prompt k (Z.of_nat a) (w, tr))) = Some ErrAIUnavailable
        -> n = k)
    /\ (snd (fst (attempts c prompt k (Z.of_nat a) (w, tr))) = None -> (0 < n)%nat).
Proof.
  induction k as [| k IH]; intros a w tr.
  - exists 0%nat. cbn [attempts ret fst snd seq map concat]. rewrite app_nil_r.
    repeat split; [lia | discriminate].
  - rewrite attempts_turn. cbv zeta.
    assert (Hturn : forall tr0 : list Effect,
      (((if 0 <? Z.of_nat a then tr0 ++ [EffSleep (backoff c (Z.of_nat a))] else tr0)
        ++ [EffWithTimeout (30 * GoTime.Second)])
         ++ [EffProvider (model c) prompt]) ++ [EffCancel]
      = tr0 ++ Tally.turn c prompt a).
    { intros tr0. unfold Tally.turn.
      destruct (0 <? Z.of_nat a); rewrite <- !app_assoc; reflexivity. }
    rewrite Hturn.
    destruct (fst (client c (model c) prompt w)) as [text | e].
    + exists 1%nat. cbn [fst snd seq map concat]. rewrite app_nil_r.
      repeat split; [lia | discriminate | lia].
    + replace (Z.of_nat a + 1) with (Z.of_nat (S a)) by lia.
      destruct (IH (S a) (snd (client c (model c) prompt w))
                  (tr ++ Tally.turn c prompt a)) as (n & Hn & Hlog & Herr & Hok).
      exists (S n). rewrite Hlog. cbn [seq map concat]. rewrite <- app_assoc.
      repeat split; [lia | | lia].
      intros H. rewrite (Herr H). reflexivity.
Qed.

(** X14. The accounting of the attempts.  In every call of
    [GenerateContent], for every client, prompt and provider, the log is a
    number [n] of turns, at most [maxRetries], one after the other and
    nothing else; a turn is the timeout of 30 seconds, then the call of the
    provider, then the cancel, and every turn but the first starts with one
    sleep of [baseDelay * 2^(attempt-1)].  So each call runs under a timeout
    of its own that is cancelled right after it, and exactly one sleep
    separates two calls.  The call gives up with the unavailable error only
    after [maxRetries] turns, and returns a text only after at least one.
    The counts follow: as many timeouts and cancels as calls, one sleep fewer.
    A client whose [maxRetries] is not positive reports the unavailable error
    without calling anything. *)
Theorem attempt_accounting (c : GeminiClient W) (prompt : string) (w : W) :
  (exists n : nat,
      (n <= Z.to_nat (maxRetries c))%nat
      /\ Run.effects (GenerateContent c prompt) w = Tally.turns c prompt n
      /\ Run.provider_calls (Run.effects (GenerateContent c prompt) w) = n
      /\ (snd (Run.result (GenerateContent c prompt) w) = Some ErrAIUnavailable
          -> n = Z.to_nat (maxRetries c))
      /\ (snd (Run.result (GenerateContent c prompt) w) = None -> (0 < n)%nat))
  /\ Tally.turn c prompt 0
     = [ EffWithTimeout (30 * GoTime.Second); EffProvider (model c) prompt; EffCancel ]
  /\ (forall i : nat,
        Tally.turn c prompt (S i)
        = [ EffSleep (backoff c (Z.of_nat (S i)));
            EffWithTimeout (30 * GoTime.Second); EffProvider (model c) prompt;
            EffCancel ])
  /\ (forall n : nat,
        Tally.turns c prompt (S n) = Tally.turns c prompt n ++ Tally.turn c prompt n)
  /\ (Run.provider_calls (Run.effects (GenerateContent c prompt) w)
      <= Z.to_nat (maxRetries c))%nat
  /\ Tally.count Tally.is_timeout (Run.effects (GenerateContent c prompt) w)
     = Run.provider_calls (Run.effects (GenerateContent c prompt) w)
  /\ Tally.count Tally.is_cancel (Run.effects (GenerateContent c prompt) w)
     = Run.provider_calls (Run.effects (GenerateContent c prompt) w)
  /\ length (Run.sleeps (Run.effects (GenerateContent c prompt) w))
     = (Run.provider_calls (Run.effects (GenerateContent c prompt) w) - 1)%nat
  /\ (maxRetries c <= 0 -> prompt <> EmptyString ->
      Run.start (GenerateContent c prompt) w
      = ((EmptyString, Some ErrAIUnavailable), (w, []))).
Proof.
  split.
  { unfold Run.effects, Run.result, Run.start, GenerateContent, Tally.turns.
    destruct (String.eqb_spec prompt EmptyString) as [-> | Hne].
    - exists 0%nat. cbn [ret fst snd seq map concat].
      repeat split; [lia | discriminate | discriminate].
    - destruct (attempts_turns c prompt (Z.to_nat (maxRetries c)) 0 w [])
        as (n & Hn & Hlog & Herr & Hok).
      change (Z.of_nat 0) with 0 in *. cbn [app] in Hlog.
      exists n. repeat split; [exact Hn | exact Hlog | | exact Herr | exact Hok].
      rewrite Hlog. apply turns_calls. }
  split; [reflexivity |].
  split.
  { intros i. unfold Tally.turn.
    replace (0 <? Z.of_nat (S i)) with true by (symmetry; apply Z.ltb_lt; lia).
    reflexivity. }
  split.
  { intros n. unfold Tally.turns. rewrite seq_S, map_app, concat_app.
    cbn [map concat Nat.add]. rewrite app_nil_r. reflexivity. }
  unfold Run.effects, Run.start, GenerateContent.
  destruct (String.eqb_spec prompt EmptyString) as [-> | Hne].
  - unfold Tally.count, Run.provider_calls, Run.sleeps. simpl.
    repeat split; try lia. intros _ Habs. exfalso. apply Habs. reflexivity.
  - destruct (attempts_counts c prompt (Z.to_nat (maxRetries c)) 0 w [])
      as (added & Hlog & Ht & Hc & Hp & Hs); [lia |].
    rewrite Hlog. cbn [app Z.ltb Z.compare] in *. repeat split; try assumption.
    intros Hzero _. replace (Z.to_nat (maxRetries c)) with 0%nat by lia. reflexivity.
Qed.

(** The loop ends with a text and no error, or with the empty string and the
    unavailable error. *)
Lemma attempts_result (c : GeminiClient W) (prompt : string) (k : nat) :
  forall (attempt : Z) (s : W * list Effect),
    snd (fst (attempts c prompt k attempt s)) = None
    \/ fst (attempts c prompt k attempt s) = (EmptyString, Some ErrAIUnavailable).
Proof.
  induction k as [| k IH]; intros attempt [w tr]; [right; reflexivity |].
  rewrite attempts_turn. cbv zeta.
  destruct (fst (client c (model c) prompt w)) as [text | e]; [left; reflexivity |].
  apply IH.
Qed.

(** X15. The errors of [GenerateContent].  Whatever the provider does, the
    call returns a text and no error, or the empty string with one of its two
    own errors: the invalid-prompt error exactly when the prompt is empty,
    the unavailable error otherwise.  An error of the provider is never
    handed to the caller. *)
Theorem GenerateContent_errors (c : GeminiClient W) (prompt : string) (w : W) :
  (snd (Run.result (GenerateContent c prompt) w) = None
   \/ Run.result (GenerateContent c prompt) w = (EmptyString, Some ErrInvalidPrompt)
   \/ Run.result (GenerateContent c prompt) w = (EmptyString, Some ErrAIUnavailable))
  /\ (snd (Run.result (GenerateContent c prompt) w) = Some ErrInvalidPrompt
      <-> prompt = EmptyString)
  /\ (forall msg, snd (Run.result (GenerateContent c prompt) w) <> Some (ErrExternal msg)).
Proof.
  unfold Run.result, Run.start, GenerateContent.
  destruct (String.eqb_spec prompt EmptyString) as [-> | Hne].
  - simpl. split; [auto |]. split; [tauto | discriminate].
  - destruct (attempts_result c prompt (Z.to_nat (maxRetries c)) 0 (w, [])) as [Hok | Herr].
    + rewrite Hok. split; [auto |]. split; [split; [discriminate | congruence] | discriminate].
    + rewrite Herr. simpl.
      split; [auto |]. split; [split; [discriminate | congruence] | discriminate].
Qed.

Lemma buildChatPrompt_nonempty (zodiacSign userMessage : string) :
  String.eqb (buildChatPrompt zodiacSign userMessage) EmptyString = false.
Proof. reflexivity. Qed.

Lemma buildInsightPrompt_nonempty (chatHistory : string) :
  String.eqb (buildInsightPrompt chatHistory) EmptyString = false.
Proof. reflexivity. Qed.

(** X16. The chat prompt is never empty.  Whatever the tag and the message
    are, the empty message included, [GenerateChatResponse] on a client with
    at least one attempt sends the composed prompt to the provider; when that
    first call succeeds its text is the answer and nothing more is done. *)
Theorem chat_reaches_provider (c : GeminiClient W) (zodiacSign userMessage : string)
  (w : W) :
  1 <= maxRetries c ->
  exists rest,
    Run.effects (GenerateChatResponse c zodiacSign userMessage) w
    = EffWithTimeout (30 * GoTime.Second)
      :: EffProvider (model c) (buildChatPrompt zodiacSign userMessage)
      :: EffCancel :: rest
    /\ forall text,
         fst (client c (model c) (buildChatPrompt zodiacSign userMessage) w) = inl text ->
         Run.result (GenerateChatResponse c zodiacSign userMessage) w = (text, None)
         /\ rest = [].
Proof.
  intros Hretries.
  unfold Run.effects, Run.result, Run.start, GenerateChatResponse, bind, ret, GenerateContent.
  rewrite buildChatPrompt_nonempty.
  destruct (Z.to_nat (maxRetries c)) as [| k] eqn:Hk; [lia |].
  rewrite attempts_turn. cbv zeta. cbn [Z.ltb Z.compare app].
  destruct (fst (client c (model c) (buildChatPrompt zodiacSign userMessage) w))
    as [text | e] eqn:Hfirst.
  - exists []. split; [reflexivity |]. intros text' [= <-]. split; reflexivity.
  - destruct (attempts_log c (buildChatPrompt zodiacSign userMessage) k (0 + 1)
                (snd (client c (model c) (buildChatPrompt zodiacSign userMessage) w))
                [EffWithTimeout (30 * GoTime.Second);
                 EffProvider (model c) (buildChatPrompt zodiacSign userMessage);
                 EffCancel]) as (added & Hlog & _).
    exists added. split; [| discriminate].
    destruct (attempts _ _ k (0 + 1) _) as [[text [err |]] [w1 tr1]];
      cbn [fst snd] in *; exact Hlog.
Qed.

End ClientMore.

Section ClientMoreWitnesses.
Import Client.
Local Open Scope Z_scope.

(** With the provider down the empty message is sent all the same, three
    times. *)
Lemma chat_reaches_provider_witness :
  exists rest,
    Run.effects (GenerateChatResponse (Run.default_client Run.down) "Leo" "") 0%nat
    = EffWithTimeout (30 * GoTime.Second)
      :: EffProvider "gemini-2.0-flash-exp" (buildChatPrompt "Leo" "")
      :: EffCancel :: rest.
Proof.
  assert (Hretries : 1 <= maxRetries (Run.default_client Run.down)).
  { vm_compute. discriminate. }
  destruct (chat_reaches_provider (Run.default_client Run.down) "Leo" "" 0%nat Hretries)
    as (rest & Hlog & _).
  exists rest. exact Hlog.
Defined.

End ClientMoreWitnesses.

(** ** From the date of birth to the fallback answer *)

Section ZodiacMore.
Import Zodiac.
Local Open Scope Z_scope.

Lemma CalculateZodiac_in_tags (month day : Z) :
  In (CalculateZodiac month day) Client.zodiacTags.
Proof.
  unfold CalculateZodiac.
  destruct month as [| p | p]; [simpl; tauto | | simpl; tauto].
  repeat match goal with
         | |- context [match ?q with xI _ => _ | xO _ => _ | xH => _ end] =>
             is_var q; destruct q
         end;
    try (destruct (_ <=? _)); simpl; tauto.
Qed.

(** X17. Every date of birth has a sign the AI caller knows.  For every
    month and day [CalculateZodiac] returns one of the twelve tags, so the
    caller has traits and a fallback answer of its own for it and never falls
    to the generic ones; and each of the twelve tags is the sign of some
    date. *)
Theorem CalculateZodiac_known_to_caller (month day : Z) :
  In (CalculateZodiac month day) Client.zodiacTags
  /\ Client.map_lookup Client.fallbacks (CalculateZodiac month day)
     = Some (Client.getFallbackChatResponse (CalculateZodiac month day))
  /\ Client.map_lookup Client.traits (CalculateZodiac month day)
     = Some (Client.getZodiacTraits (CalculateZodiac month day))
  /\ (forall tag, In tag Client.zodiacTags ->
        exists m d, 1 <= m <= 12 /\ 1 <= d <= 28 /\ CalculateZodiac m d = tag).
Proof.
  pose proof (CalculateZodiac_in_tags month day) as Hin.
  split; [exact Hin |].
  split; [apply getFallbackChatResponse_own; exact Hin |].
  split.
  - unfold Client.zodiacTags in Hin. simpl in Hin.
    repeat (destruct Hin as [<- | Hin]; [reflexivity |]). destruct Hin.
  - intros tag Htag. unfold Client.zodiacTags in Htag. simpl in Htag.
    destruct Htag as [<- | [<- | [<- | [<- | [<- | [<- | [<- | [<- | [<- | [<- | [<- | [<- | []]]]]]]]]]]]].
    + exists 4, 1. repeat split; discriminate.
    + exists 5, 1. repeat split; discriminate.
    + exists 6, 1. repeat split; discriminate.
    + exists 7, 1. repeat split; discriminate.
    + exists 8, 1. repeat split; discriminate.
    + exists 9, 1. repeat split; discriminate.
    + exists 10, 1. repeat split; discriminate.
    + exists 11, 1. repeat split; discriminate.
    + exists 12, 1. repeat split; discriminate.
    + exists 1, 1. repeat split; discriminate.
    + exists 2, 1. repeat split; discriminate.
    + exists 3, 1. repeat split; discriminate.
Qed.

(** X18. The signs join up across the months.  In every month the sign of
    the last days (from the 23rd on) is the sign of the first days (up to the
    18th) of the month that follows, December being followed by January; and
    within a month the sign changes once: every day has the sign of the 1st
    or the sign of the 28th, and the two differ. *)
Theorem zodiac_periods_join (month day day' : Z) :
  1 <= month <= 12 ->
  (23 <= day -> day' <= 18 ->
   CalculateZodiac month day = CalculateZodiac (next_month month) day')
  /\ (CalculateZodiac month day = CalculateZodiac month 1
      \/ CalculateZodiac month day = CalculateZodiac month 28)
  /\ CalculateZodiac month 1 <> CalculateZodiac month 28.
Proof.
  intros Hm.
  assert (Hcases : month = 1 \/ month = 2 \/ month = 3 \/ month = 4 \/ month = 5
                   \/ month = 6 \/ month = 7 \/ month = 8 \/ month = 9 \/ month = 10
                   \/ month = 11 \/ month = 12) by lia.
  repeat (destruct Hcases as [-> | Hcases]); [.. | subst month];
    (split; [intros Hlate Hearly | split; [| discriminate]]);
    unfold CalculateZodiac, next_month; simpl;
    repeat match goal with
           | |- context [?a <=? ?b] => destruct (Z.leb_spec a b); try lia
           end;
    auto.
Qed.

Lemma zodiac_periods_join_witness :
  CalculateZodiac 12 25 = CalculateZodiac 1 5
  /\ CalculateZodiac 12 25 = "Capricorn"%string.
Proof.
  assert (Hm : 1 <= 12 <= 12) by (split; discriminate).
  destruct (zodiac_periods_join 12 25 5 Hm) as (Hjoin & _).
  split; [| reflexivity].
  apply Hjoin; discriminate.
Defined.

End ZodiacMore.

(** ** The AI service end to end *)

Section ServiceMore.
Import Queue.
Local Open Scope Z_scope.
Context {W : Type}.

Lemma GenerateChatResponse_no_error (c : Client.GeminiClient W)
  (zodiacSign userMessage : string) (s : W * list Client.Effect) :
  snd (fst (Client.GenerateChatResponse c zodiacSign userMessage s)) = None.
Proof.
  unfold Client.GenerateChatResponse, Client.bind, Client.ret.
  destruct (Client.GenerateContent c _ s) as [[text [e |]] s1]; reflexivity.
Qed.

Lemma GenerateInsight_no_error (c : Client.GeminiClient W) (chatHistory : string)
  (s : W * list Client.Effect) :
  snd (fst (Client.GenerateInsight c chatHistory s)) = None.
Proof.
  unfold Client.GenerateInsight, Client.bind, Client.ret.
  destruct (Client.GenerateContent c _ s) as [[text [e |]] s1]; reflexivity.
Qed.

(** X19. A chat request from the handler to the worker and back.  On a
    running queue with an empty buffer and the processor of [main], the
    request the handler builds is accepted, is the next one a worker takes,
    and, its context being alive, is answered with the text of
    [GenerateChatResponse] and no error; the handler then answers 200
    "AI response generated" with that text.  When the provider is down the
    text is the fallback of the tag, and the answer is the same 200: it is
    not marked as a fallback. *)
Theorem chat_end_to_end (geminiClient : Client.GeminiClient W) (q : t W)
  (zodiacSign userMessage requestID : string) (ctxErr : W -> option error)
  (now : GoTime.Time) (w : W) :
  processor q = AIService.processor geminiClient ->
  closed q = false ->
  queue q = [] ->
  0 < capacity q ->
  ctxErr w = None ->
  let req := {| ID := requestID; ReqData := DataChat zodiacSign userMessage;
                ContextErr := ctxErr; EnqueueAt := now |} in
  let text := fst (Run.result (Client.GenerateChatResponse geminiClient
                                 zodiacSign userMessage) w) in
  let reply := snd (fst (processRequest req (dequeue (snd (Enqueue req q))) w)) in
  fst (Enqueue req q) = None
  /\ inFlight (dequeue (snd (Enqueue req q))) = inFlight q ++ [req]
  /\ reply = {| ResultData := DataString text; ResultError := None |}
  /\ fst (Handlers.GenerateChatResponse (Some (zodiacSign, userMessage)) requestID
            ctxErr now (Handlers.Reply reply) q)
     = Handlers.Responded (Response.Success "AI response generated" text)
  /\ ((forall m p w', exists e, fst (Client.client geminiClient m p w') = inr e) ->
      text = Client.getFallbackChatResponse zodiacSign).
Proof.
  intros Hproc Hopen Hempty Hcap Hctx req text reply.
  assert (Henq : Enqueue req q
                 = (None, set_totalEnqueued (GoInt.incr (totalEnqueued q))
                            (set_queue [req] q))).
  { unfold Enqueue, QueueSize_of. rewrite Hopen, Hempty.
    change (Z.of_nat (length [])) with 0. change ([] ++ [req]) with [req].
    destruct (Z.ltb_spec 0 (capacity q)); [reflexivity | lia]. }
  assert (Hreply : reply = {| ResultData := DataString text; ResultError := None |}).
  { subst reply text. rewrite Henq. cbn [snd]. unfold dequeue.
    cbn [queue set_totalEnqueued set_queue].
    unfold processRequest, req. simpl. rewrite Hctx, Hproc. unfold AIService.processor, Run.result, Run.start.
    pose proof (GenerateChatResponse_no_error geminiClient zodiacSign userMessage (w, []))
      as Hno.
    destruct (Client.GenerateChatResponse geminiClient zodiacSign userMessage (w, []))
      as [[response err] [w1 tr]].
    cbn [fst snd] in *. subst err. reflexivity. }
  split; [rewrite Henq; reflexivity |].
  split; [rewrite Henq; cbn [snd]; unfold dequeue; simpl; reflexivity |].
  split; [exact Hreply |].
  split.
  - unfold Handlers.GenerateChatResponse. fold req. rewrite Henq, Hreply. reflexivity.
  - intros Hdown. subst text. unfold Run.result, Run.start.
    unfold Client.GenerateChatResponse, Client.bind, Client.ret.
    destruct (GenerateContent_all_fail geminiClient
                (Client.buildChatPrompt zodiacSign userMessage) (w, []) Hdown) as [e He].
    destruct (Client.GenerateContent geminiClient _ (w, [])) as [[t err] s1].
    simpl in He. subst err. reflexivity.
Qed.

(** X20. The handlers that call the client themselves never answer 500.
    Since [GenerateInsight] and [GenerateChatResponse] of the client return no
    error, the insight handler and the chat handler without a queue answer
    400 to a body that does not parse and 200 to every other request,
    whatever the provider does. *)
Theorem direct_handlers_never_fail (geminiClient : Client.GeminiClient W)
  (insightBody : option string) (chatBody : option (string * string)) (w : W) :
  Response.Status (fst (AIService.GenerateInsight geminiClient insightBody w))
  = match insightBody with
    | Some _ => Response.StatusOK
    | None => Response.StatusBadRequest
    end
  /\ Response.Status (fst (AIService.GenerateChatResponse_direct geminiClient chatBody w))
     = match chatBody with
       | Some _ => Response.StatusOK
       | None => Response.StatusBadRequest
       end.
Proof.
  split.
  - destruct insightBody as [chatHistory |]; [| reflexivity].
    unfold AIService.GenerateInsight.
    pose proof (GenerateInsight_no_error geminiClient chatHistory (w, [])) as Hno.
    destruct (Client.GenerateInsight geminiClient chatHistory (w, []))
      as [[insight err] [w1 tr]].
    cbn [fst snd] in Hno. subst err. reflexivity.
  - destruct chatBody as [[zodiacSign userMessage] |]; [| reflexivity].
    unfold AIService.GenerateChatResponse_direct.
    pose proof (GenerateChatResponse_no_error geminiClient zodiacSign userMessage (w, []))
      as Hno.
    destruct (Client.GenerateChatResponse geminiClient zodiacSign userMessage (w, []))
      as [[aiResponse err] [w1 tr]].
    cbn [fst snd] in Hno. subst err. reflexivity.
Qed.

End ServiceMore.

Section ServiceMoreWitnesses.
Local Open Scope Z_scope.

(** With the provider down, a Leo gets the fallback of the Leo under a
    plain 200. *)
Lemma chat_end_to_end_witness :
  fst (Handlers.GenerateChatResponse (Some ("Leo", "hi")) "id" (fun _ => None) 0
         (Handlers.Reply
            (snd (fst (Queue.processRequest
                         {| Queue.ID := "id"; Queue.ReqData := Queue.DataChat "Leo" "hi";
                            Queue.ContextErr := fun _ => None; Queue.EnqueueAt := 0 |}
                         (Queue.dequeue
                            (snd (Queue.Enqueue
                                    {| Queue.ID := "id";
                                       Queue.ReqData := Queue.DataChat "Leo" "hi";
                                       Queue.ContextErr := fun _ => None;
                                       Queue.EnqueueAt := 0 |}
                                    SampleService.ai_queue)))
                         0%nat))))
         SampleService.ai_queue)
  = Handlers.Responded
      (Response.Success "AI response generated" "Halo! Ada yang bisa aku bantu hari ini?").
Proof.
  assert (Hcap : 0 < Queue.capacity SampleService.ai_queue) by reflexivity.
  destruct (chat_end_to_end (Run.default_client Run.down) SampleService.ai_queue
              "Leo" "hi" "id" (fun _ => None) 0 0%nat
              eq_refl eq_refl eq_refl Hcap eq_refl)
    as (_ & _ & _ & Hanswer & Hdown).
  rewrite Hanswer. rewrite Hdown; [reflexivity |].
  intros m p n. eexists. reflexivity.
Defined.

End ServiceMoreWitnesses.
